(** * channel_pruning_lasso: the fine-tuning driver [train.py]

    A shallow embedding of the bookkeeping code of [train.py]: the run-folder
    allocator, the learning-rate scheduler, mixup, the best-accuracy tracking
    of the evaluation epoch, checkpoint saving and the resume branch of the
    driver.

    Conventions.
    - Python exceptions are values of [exn]; a function that can raise returns
      [result A].
    - Strings are [string]; folder and file names are ASCII.
    - Stored floating-point values (accuracies, weights, pixels) are rationals
      [Q]: every finite float is a rational, and the code only copies,
      compares and blends them.  The learning-rate schedule needs [cos] and
      [PI] and is stated over the reals [R].  Rounding, infinities and NaN are
      not represented.
    - The ML framework (network constructors, a training pass, an evaluation
      pass) is an interface, [Torch], that the driver is parameterised by.
    - The file store [files] holds the checkpoint files only, by path.
      Directories are taken to exist: [os.makedirs] and the directory of a
      copy's destination are not represented, nor is the event file the
      summary writer keeps under the log directory (its scalars are the
      [writer] list of the session).
    - A tensor is the list of its entries; its shape is represented by the
      number of entries. *)

From stdpp Require Import gmap strings list fin_maps.
From Stdlib Require Import Ascii QArith Qminmax Reals Lra DecimalString.
From Stdlib Require DecimalPos.

Local Open Scope Z_scope.

(** ** Exceptions *)

Inductive exn : Type :=
  | NotImplementedError
  | ZeroDivisionError
  | ValueError
  | IndexError
  | KeyError
  | TypeError
  | NameError
  | RuntimeError
  | FileNotFoundError
  | SameFileError.

Inductive result (A : Type) : Type :=
  | Ok (a : A)
  | Err (e : exn).
Arguments Ok {A} a.
Arguments Err {A} e.

#[global] Instance result_ret : MRet result := λ A a, Ok a.
#[global] Instance result_bind : MBind result := λ A B k r,
  match r with
  | Ok a => k a
  | Err e => Err e
  end.
#[global] Instance result_fmap : FMap result := λ A B f r,
  match r with
  | Ok a => Ok (f a)
  | Err e => Err e
  end.

(** ** Python built-ins used by the driver *)

Module Py.

(** Is [p] a prefix of [s]? *)
Fixpoint is_prefix (p s : string) : bool :=
  match p with
  | EmptyString => true
  | String a p' =>
      match s with
      | EmptyString => false
      | String b s' => Ascii.eqb a b && is_prefix p' s'
      end
  end.

(** Does the character [c] occur in [s]? *)
Fixpoint has_char (c : ascii) (s : string) : bool :=
  match s with
  | EmptyString => false
  | String a s' => Ascii.eqb a c || has_char c s'
  end.

(** [s.startswith(p)] *)
Definition startswith (s p : string) : bool := is_prefix p s.

(** [s.endswith("/")] and the like, for a one-character suffix. *)
Fixpoint endswith_char (s : string) (c : ascii) : bool :=
  match s with
  | EmptyString => false
  | String a EmptyString => Ascii.eqb a c
  | String _ s' => endswith_char s' c
  end.

(** Does [p] occur in [s] as a substring ([p in s])? *)
Fixpoint occurs (p s : string) : bool :=
  is_prefix p s ||
  match s with
  | EmptyString => false
  | String _ s' => occurs p s'
  end.

Definition cons_head (c : ascii) (l : list string) : list string :=
  match l with
  | [] => [String c EmptyString]
  | p :: ps => String c p :: ps
  end.

(** The scan of [str.split(sep)]: left to right, cutting at every
    occurrence of [sep] found and resuming after it.  [skip] counts the
    characters of a matched separator that are still to be passed over. *)
Fixpoint split_go (sep : string) (skip : nat) (s : string) : list string :=
  match s with
  | EmptyString => [EmptyString]
  | String c s' =>
      match skip with
      | S k => split_go sep k s'
      | O =>
          if is_prefix sep s
          then EmptyString :: split_go sep (String.length sep - 1) s'
          else cons_head c (split_go sep 0 s')
      end
  end.

(** [s.split(sep)]; an empty separator raises [ValueError]. *)
Definition split (s sep : string) : result (list string) :=
  match sep with
  | EmptyString => Err ValueError
  | _ => Ok (split_go sep 0 s)
  end.

(** [l[-1]] *)
Definition last_item {A : Type} (l : list A) : result A :=
  match last l with
  | Some x => Ok x
  | None => Err IndexError
  end.

(** The scan of [str.replace(old, new)] for a non-empty [old]. *)
Fixpoint replace_go (old new : string) (skip : nat) (s : string) : string :=
  match s with
  | EmptyString => EmptyString
  | String c s' =>
      match skip with
      | S k => replace_go old new k s'
      | O =>
          if is_prefix old s
          then new +:+ replace_go old new (String.length old - 1) s'
          else String c (replace_go old new 0 s')
      end
  end.

(** For an empty [old], Python inserts [new] before every character and at
    the end. *)
Fixpoint intersperse (new s : string) : string :=
  match s with
  | EmptyString => new
  | String c s' => new +:+ String c (intersperse new s')
  end.

(** [s.replace(old, new)] *)
Definition replace (s old new : string) : string :=
  match old with
  | EmptyString => intersperse new s
  | _ => replace_go old new 0 s
  end.

(** ASCII white space as [int()] skips it: tab, LF, VT, FF, CR, space. *)
Definition is_space (c : ascii) : bool :=
  let n := nat_of_ascii c in
  ((9 <=? n)%nat && (n <=? 13)%nat) || (n =? 32)%nat.

Definition digit_val (c : ascii) : option Z :=
  let n := nat_of_ascii c in
  if ((48 <=? n)%nat && (n <=? 57)%nat)%bool
  then Some (Z.of_nat (n - 48))
  else None.

Fixpoint lstrip (s : string) : string :=
  match s with
  | String c s' => if is_space c then lstrip s' else s
  | EmptyString => EmptyString
  end.

Fixpoint all_space (s : string) : bool :=
  match s with
  | EmptyString => true
  | String c s' => is_space c && all_space s'
  end.

(** What the digit scan saw last. *)
Inductive prev_char : Type := PNone | PDigit | PUnderscore.

(** The digit scan of [int(s)] in base 10: digits, with single underscores
    allowed between digits only.  Returns the value and the unread rest. *)
Fixpoint scan_digits (acc : Z) (prev : prev_char) (s : string)
  : option (Z * string) :=
  let finish :=
    match prev with
    | PDigit => Some (acc, s)
    | _ => None
    end in
  match s with
  | EmptyString => finish
  | String c s' =>
      match digit_val c with
      | Some d => scan_digits (10 * acc + d) PDigit s'
      | None =>
          if Ascii.eqb c "_"
          then match prev with
               | PDigit => scan_digits acc PUnderscore s'
               | _ => None
               end
          else finish
      end
  end.

(** [int(s)] for a string [s]: surrounding white space, an optional sign,
    decimal digits; anything else raises [ValueError]. *)
Definition int (s : string) : result Z :=
  let s1 := lstrip s in
  let '(neg, s2) :=
    match s1 with
    | String "-" r => (true, r)
    | String "+" r => (false, r)
    | _ => (false, s1)
    end in
  match scan_digits 0 PNone s2 with
  | Some (n, rest) =>
      if all_space rest then Ok (if neg then - n else n) else Err ValueError
  | None => Err ValueError
  end.

(** ['{}'.format(n)] for an integer [n]. *)
Definition str_of_int (n : Z) : string :=
  NilZero.string_of_int (Z.to_int n).

(** [os.path.join(a, b)] (POSIX). *)
Definition os_path_join (a b : string) : string :=
  if startswith b "/" then b
  else if String.eqb a EmptyString || endswith_char a "/" then a +:+ b
  else a +:+ "/" +:+ b.

End Py.

(** ** The run-folder allocator: [get_output_folder] *)

(** One entry of [os.listdir(parent_dir)], with the answer of [os.path.isdir]
    for it. *)
Definition dir_entry : Type := string * bool.

(** The run number a folder name carries: [int(folder_name.split('-run')[-1])]. *)
Definition run_number (folder_name : string) : result Z :=
  pieces ← Py.split folder_name "-run";
  tail ← Py.last_item pieces;
  Py.int tail.

(** The body of the [for] loop: [experiment_id] after one entry. *)
Definition scan_entry (experiment_id : Z) (e : dir_entry) : Z :=
  let '(folder_name, is_dir) := e in
  if negb is_dir then experiment_id
  else
    match run_number folder_name with
    | Ok n => if n >? experiment_id then n else experiment_id
    | Err _ => experiment_id
    end.

(** [get_output_folder(parent_dir, env_name)], given the listing of
    [parent_dir].  Returns the path of the run folder; both [os.makedirs]
    calls are taken to succeed. *)
Definition get_output_folder (parent_dir env_name : string)
    (listing : list dir_entry) : string :=
  let experiment_id := fold_left scan_entry listing 0 in
  let experiment_id := experiment_id + 1 in
  let parent_dir := Py.os_path_join parent_dir env_name in
  parent_dir +:+ "-run" +:+ Py.str_of_int experiment_id.

(** ** Command-line arguments: [parse_args] *)

Module Args.
Record t : Type := Build {
  model : string;
  dataset : string;
  lr : R;
  n_gpu : Z;
  batch_size : Z;
  n_worker : Z;
  lr_type : string;
  n_epoch : Z;
  wd : R;
  seed : option Z;
  data_root : option string;
  ckpt_path : option string;
  eval : bool;
  mixup : bool;
  prune_layer : option (list string)
}.

(** The defaults of the parser, i.e. the arguments of a run without flags. *)
Definition default : t := {|
  model := "mobilenet";
  dataset := "imagenet";
  lr := 0.1;
  n_gpu := 1;
  batch_size := 128;
  n_worker := 4;
  lr_type := "exp";
  n_epoch := 150;
  wd := 4e-5;
  seed := None;
  data_root := None;
  ckpt_path := None;
  eval := false;
  mixup := false;
  prune_layer := None
|}.
End Args.

(** ** Tensors, networks and the optimizer *)

(** A tensor, flattened to its list of entries. *)
Abbreviation tensor := (list Q).
(** A state dict: parameter and buffer names to tensors. *)
Abbreviation state_dict := (gmap string tensor).

Record module : Type := Build_module { weights : state_dict }.

(** A network handle: the bare module, or the module wrapped for several
    devices by [torch.nn.DataParallel]. *)
Inductive network : Type :=
  | Plain (m : module)
  | DataParallel (m : module) (device_ids : list Z).

Record param_group : Type := Build_param_group {
  pg_params : list string;
  pg_lr : R;
  pg_momentum : R;
  pg_weight_decay : R
}.

Record optim : Type := Build_optim {
  param_groups : list param_group;
  opt_state : gmap string tensor
}.

(** [param_group['lr'] = lr] *)
Definition set_lr (lr : R) (g : param_group) : param_group :=
  {| pg_params := pg_params g; pg_lr := lr;
     pg_momentum := pg_momentum g; pg_weight_decay := pg_weight_decay g |}.

(** [optim.SGD(net.parameters(), lr=lr, momentum=momentum, weight_decay=wd)]:
    one parameter group, no per-parameter state yet. *)
Definition SGD (m : module) (lr momentum weight_decay : R) : optim :=
  {| param_groups :=
       [ {| pg_params := (map_to_list (weights m)).*1; pg_lr := lr;
            pg_momentum := momentum; pg_weight_decay := weight_decay |} ];
     opt_state := ∅ |}.

(** ** The learning-rate scheduler: [adjust_learning_rate] *)

Section Scheduler.
Local Open Scope R_scope.

(** The [if]/[elif] chain that selects [lr]. *)
Definition lr_policy (a : Args.t) (epoch : Z) : result R :=
  if String.eqb (Args.lr_type a) "cos" then
    if Z.eqb (Args.n_epoch a) 0 then Err ZeroDivisionError
    else Ok (0.5 * Args.lr a *
             (1 + cos (PI * IZR epoch / IZR (Args.n_epoch a))))
  else if String.eqb (Args.lr_type a) "exp" then
    let step := 1%Z in
    let decay := 0.96 in
    Ok (Args.lr a * powerRZ decay (epoch `div` step))
  else if String.eqb (Args.lr_type a) "fixed" then
    Ok (Args.lr a)
  else Err NotImplementedError.

Definition adjust_learning_rate (a : Args.t) (optimizer : optim) (epoch : Z)
  : result (R * optim) :=
  lr ← lr_policy a epoch;
  let optimizer :=
    {| param_groups := set_lr lr <$> param_groups optimizer;
       opt_state := opt_state optimizer |} in
  Ok (lr, optimizer).
End Scheduler.

(** ** Mixup: [mixup_data] and [mixup_criterion] *)

(** A batch: one flattened sample per index of the first dimension. *)
Abbreviation batch := (list tensor).

Section Mixup.
Local Open Scope Q_scope.

(** [lam * x] *)
Definition scale (lam : Q) (x : batch) : batch :=
  (λ row : tensor, Qmult lam <$> row) <$> x.

(** [a + b] for two batches of one shape. *)
Definition add (a b : batch) : batch := zip_with (zip_with Qplus) a b.

(** [x[index]]: the entries of [x] at the positions [index] lists;
    a position out of range raises [IndexError]. *)
Definition gather {A : Type} (x : list A) (index : list nat) : result (list A) :=
  match mapM (λ i, x !! i) index with
  | Some r => Ok r
  | None => Err IndexError
  end.

(** [mixup_data(x, y, alpha, use_cuda)].  The two random draws are inputs:
    [beta_sample] is the value of [np.random.beta(alpha, alpha)] and
    [randperm] the value of [torch.randperm(batch_size)].  [use_cuda] only
    selects the device of the permutation. *)
Definition mixup_data (x : batch) (y : list Z) (alpha : Q) (use_cuda : bool)
    (beta_sample : Q) (randperm : list nat)
  : result (batch * list Z * list Z * Q) :=
  let lam := if Qlt_le_dec 0 alpha then beta_sample else 1 in
  let index := randperm in
  x_index ← gather x index;
  let mixed_x := add (scale lam x) (scale (1 - lam) x_index) in
  y_index ← gather y index;
  let '(y_a, y_b) := (y, y_index) in
  Ok (mixed_x, y_a, y_b, lam).

Definition mixup_criterion {P : Type} (criterion : P → list Z → Q)
    (pred : P) (y_a y_b : list Z) (lam : Q) : Q :=
  lam * criterion pred y_a + (1 - lam) * criterion pred y_b.
End Mixup.

(** ** Serialized objects and the file store *)

(** What [torch.save] writes and [torch.load] returns. *)
Inductive value : Type :=
  | VInt (z : Z)
  | VFloat (q : Q)
  | VStr (s : string)
  | VTensor (t : tensor)
  | VOptim (o : optim)
  | VDict (d : gmap string value).

(** The files of the run, by path. *)
Abbreviation files := (gmap string value).

Definition torch_save (obj : value) (filename : string) (disk : files) : files :=
  <[filename := obj]> disk.

Definition torch_load (filename : string) (disk : files) : result value :=
  match disk !! filename with
  | Some v => Ok v
  | None => Err FileNotFoundError
  end.

(** [shutil.copyfile(src, dst)]; the directory of [dst] is taken to exist. *)
Definition copyfile (src dst : string) (disk : files) : result files :=
  if String.eqb src dst then Err SameFileError
  else
    match disk !! src with
    | Some v => Ok (<[dst := v]> disk)
    | None => Err FileNotFoundError
    end.

(** [m.state_dict()] as a serializable object. *)
Definition state_dict_value (m : module) : value :=
  VDict (VTensor <$> weights m).

Definition is_tensor (v : value) : bool :=
  match v with VTensor _ => true | _ => false end.

Definition tensor_of (v : value) : option tensor :=
  match v with VTensor t => Some t | _ => None end.

(** [m.load_state_dict(sd)], strict: [sd] must be a mapping of exactly the
    module's keys to tensors of the module's sizes (the number of entries
    stands for the shape). *)
Definition load_state_dict (m : module) (sd : value) : result module :=
  match sd with
  | VDict d =>
      if forallb is_tensor (map_to_list d).*2 then
        let w : state_dict := omap tensor_of d in
        if decide (length <$> w = length <$> weights m)
        then Ok (Build_module w)
        else Err RuntimeError
      else Err RuntimeError
  | _ => Err TypeError
  end.

(** ** The training session *)

Record metrics : Type := Build_metrics {
  loss_avg : Q;
  top1_avg : Q;
  top5_avg : Q
}.

(** The ML framework and the data, as the driver uses them. *)
Class Torch : Type := {
  (** the networks built by [models.vgg] *)
  vgg16_bn : module;
  vgg16_bn_x : module;
  (** [torch.cuda.is_available()] *)
  use_cuda : bool;
  (** what the batch loop of [train] does to the network and the optimizer,
      and the averages of its meters *)
  train_pass : Args.t → Z → network → optim → network * optim * metrics;
  (** the averages of the meters after the batch loop of [test] *)
  eval_pass : network → metrics
}.

(** The globals of the script that change during a run, with the store of
    checkpoint files and the scalars sent to the summary writer (the writer's
    own event file is not a file of [disk]). *)
Record session : Type := Build_session {
  net : network;
  optimizer : optim;
  best_acc : Q;
  disk : files;
  writer : list (string * Q * Z)
}.

(** [save_checkpoint(state, is_best, checkpoint_dir)] *)
Definition save_checkpoint (state : value) (is_best : bool)
    (checkpoint_dir : string) (disk : files) : result files :=
  let filename := Py.os_path_join checkpoint_dir "ckpt.pth.tar" in
  let disk := torch_save state filename disk in
  if is_best
  then copyfile filename (Py.replace filename ".pth.tar" ".best.pth.tar") disk
  else Ok disk.

(** [net.module.state_dict() if isinstance(net, nn.DataParallel)
     else net.state_dict()] *)
Definition net_state_dict (n : network) : value :=
  match n with
  | DataParallel m _ => state_dict_value m
  | Plain m => state_dict_value m
  end.

(** The dictionary [test] hands to [save_checkpoint]. *)
Definition checkpoint_state (a : Args.t) (epoch : Z) (n : network)
    (o : optim) (top1 : metrics) : value :=
  VDict (<["epoch" := VInt epoch]>
        (<["model" := VStr (Args.model a)]>
        (<["dataset" := VStr (Args.dataset a)]>
        (<["state_dict" := net_state_dict n]>
        (<["acc" := VFloat (top1_avg top1)]>
        (<["optimizer" := VOptim o]> ∅)))))).

(** [test] after its batch loop, given the averages [m] of the meters.
    [log_dir] is bound in the training branch of the driver only. *)
Definition test_tail (a : Args.t) (log_dir : option string) (m : metrics)
    (epoch : Z) (save : bool) (st : session) : result session :=
  if save then
    match log_dir with
    | None => Err NameError
    | Some log_dir =>
        let writer :=
          writer st ++ [("loss/test", loss_avg m, epoch);
                        ("acc/test_top1", top1_avg m, epoch);
                        ("acc/test_top5", top5_avg m, epoch)] in
        let is_best := if Qlt_le_dec (best_acc st) (top1_avg m) then true else false in
        let best_acc := if is_best then top1_avg m else best_acc st in
        disk ← save_checkpoint
                 (checkpoint_state a epoch (net st) (optimizer st) m)
                 is_best log_dir (disk st);
        Ok {| net := net st; optimizer := optimizer st; best_acc := best_acc;
              disk := disk; writer := writer |}
    end
  else Ok st.

Section Driver.
Context `{!Torch}.

(** [test(epoch, test_loader, save)] *)
Definition test (a : Args.t) (log_dir : option string) (epoch : Z)
    (save : bool) (st : session) : result session :=
  test_tail a log_dir (eval_pass (net st)) epoch save st.

(** [train(epoch, train_loader)] *)
Definition train (a : Args.t) (epoch : Z) (st : session) : session :=
  let '(n, o, m) := train_pass a epoch (net st) (optimizer st) in
  {| net := n; optimizer := o; best_acc := best_acc st; disk := disk st;
     writer := writer st ++ [("loss/train", loss_avg m, epoch);
                             ("acc/train_top1", top1_avg m, epoch);
                             ("acc/train_top5", top5_avg m, epoch)] |}.

(** [get_model()] *)
Definition get_model (a : Args.t) : result module :=
  if String.eqb (Args.model a) "vgg16_bn" then Ok vgg16_bn
  else if String.eqb (Args.model a) "vgg16_bn_x" then Ok vgg16_bn_x
  else Err NotImplementedError.

(** The resume branch: [torch.load], the choice of [sd], [load_state_dict]. *)
Definition resume (ckpt_path : string) (disk : files) (m : module)
  : result module :=
  checkpoint ← torch_load ckpt_path disk;
  sd ← match checkpoint with
       | VDict d =>
           match d !! "state_dict" with
           | Some v => Ok v
           | None => Ok checkpoint
           end
       | _ => Err TypeError
       end;
  load_state_dict m sd.

(** The driver from [best_acc = 0] up to the construction of the optimizer
    (the data pipeline apart). *)
Definition setup (a : Args.t) (disk : files) : result (session * Z) :=
  let best_acc := 0%Q in
  let start_epoch := 0 in
  _ ← get_model a;
  m ← get_model a;
  m ← match Args.ckpt_path a with
      | Some p => resume p disk m
      | None => Ok m
      end;
  let n :=
    if use_cuda && (Args.n_gpu a >? 1)
    then DataParallel m (seqZ 0 (Args.n_gpu a))
    else Plain m in
  let optimizer := SGD m (Args.lr a) 0.9 (Args.wd a) in
  Ok ({| net := n; optimizer := optimizer; best_acc := best_acc;
         disk := disk; writer := [] |}, start_epoch).

(** The body of the epoch loop, over the epochs still to run. *)
Fixpoint epoch_loop (a : Args.t) (log_dir : string) (epochs : list Z)
    (st : session) : result session :=
  match epochs with
  | [] => Ok st
  | epoch :: epochs =>
      '(lr, o) ← adjust_learning_rate a (optimizer st) epoch;
      let st := {| net := net st; optimizer := o; best_acc := best_acc st;
                   disk := disk st; writer := writer st |} in
      let st := train a epoch st in
      st ← test a (Some log_dir) epoch true st;
      epoch_loop a log_dir epochs st
  end.

(** The driver, given the listing of [./logs].  The directories made by
    [get_output_folder] and the writer's event file leave no trace in
    [disk]. *)
Definition main (a : Args.t) (disk : files) (logs : list dir_entry)
  : result session :=
  '(st, start_epoch) ← setup a disk;
  if Args.eval a then test a None 0 false st
  else
    let log_dir :=
      get_output_folder "./logs"
        (Args.model a +:+ "_" +:+ Args.dataset a +:+ "_finetune") logs in
    epoch_loop a log_dir (seqZ start_epoch (Args.n_epoch a)) st.
End Driver.

(** ** Auxiliary definitions for the statements *)

(** The run number an entry of the listing contributes, if any. *)
Definition entry_run (e : dir_entry) : option Z :=
  let '(folder_name, is_dir) := e in
  if is_dir then
    match run_number folder_name with
    | Ok n => Some n
    | Err _ => None
    end
  else None.

(** The highest run number of a listing, 0 when there is none. *)
Definition highest_run (listing : list dir_entry) : Z :=
  foldr Z.max 0 (omap entry_run listing).

(** The allocator as the specification words it: a folder counts when its
    name ends in [<env_name>-run<N>]. *)
Module Claimed.
Fixpoint rev_onto (s acc : string) : string :=
  match s with
  | EmptyString => acc
  | String c s' => rev_onto s' (String c acc)
  end.

Definition is_suffix (p s : string) : bool :=
  Py.is_prefix (rev_onto p EmptyString) (rev_onto s EmptyString).

Definition counted_run (env_name : string) (e : dir_entry) : option Z :=
  let '(folder_name, is_dir) := e in
  if is_dir then
    match Py.split folder_name "-run" ≫= Py.last_item with
    | Ok tail =>
        if is_suffix (env_name +:+ "-run" +:+ tail) folder_name then
          match Py.int tail with
          | Ok n => Some n
          | Err _ => None
          end
        else None
    | Err _ => None
    end
  else None.

Definition output_folder (parent_dir env_name : string)
    (listing : list dir_entry) : string :=
  let n := foldr Z.max 0 (omap (counted_run env_name) listing) in
  Py.os_path_join parent_dir env_name +:+ "-run" +:+ Py.str_of_int (n + 1).
End Claimed.

(** [o'] is [o] with [lr] written into every parameter group. *)
Definition lr_written (lr : R) (o o' : optim) : Prop :=
  length (param_groups o') = length (param_groups o) ∧
  opt_state o' = opt_state o ∧
  ∀ i g', param_groups o' !! i = Some g' →
    pg_lr g' = lr ∧
    ∃ g, param_groups o !! i = Some g ∧
         pg_params g' = pg_params g ∧ pg_momentum g' = pg_momentum g ∧
         pg_weight_decay g' = pg_weight_decay g.

(** [adjust_learning_rate] returns [lr] and leaves [lr] in every parameter
    group of the optimizer. *)
Definition sets_lr (a : Args.t) (o : optim) (epoch : Z) (lr : R) : Prop :=
  ∃ o', adjust_learning_rate a o epoch = Ok (lr, o') ∧ lr_written lr o o'.

(** Arguments with the given base learning rate and policy. *)
Definition args_with_lr (lr0 : R) (lr_type : string) (n_epoch : Z) : Args.t :=
  {| Args.model := "vgg16_bn"; Args.dataset := "imagenet"; Args.lr := lr0;
     Args.n_gpu := 1; Args.batch_size := 128; Args.n_worker := 4;
     Args.lr_type := lr_type; Args.n_epoch := n_epoch; Args.wd := 4e-5;
     Args.seed := None; Args.data_root := None; Args.ckpt_path := None;
     Args.eval := false; Args.mixup := false; Args.prune_layer := None |}.

(** An optimizer over two parameters. *)
Definition sample_module : module :=
  Build_module {[ "conv.weight" := [1 # 2; 3 # 4]%Q; "fc.bias" := [0 # 1]%Q ]}.

(** The file [save_checkpoint] writes in [checkpoint_dir]. *)
Definition ckpt_file (checkpoint_dir : string) : string :=
  Py.os_path_join checkpoint_dir "ckpt.pth.tar".

(** The destination of the copy made for a best checkpoint. *)
Definition best_file (checkpoint_dir : string) : string :=
  Py.replace (ckpt_file checkpoint_dir) ".pth.tar" ".best.pth.tar".

(** The scalars [test] sends to the summary writer. *)
Definition test_scalars (m : metrics) (epoch : Z) : list (string * Q * Z) :=
  [("loss/test", loss_avg m, epoch);
   ("acc/test_top1", top1_avg m, epoch);
   ("acc/test_top5", top5_avg m, epoch)].

(** Sequences of training passes and evaluation epochs. *)

(** What happens to the session between the start and the end of a run: a
    training pass leaves the network and the optimizer in some state; an
    evaluation epoch ends with meters [m]. *)
Inductive event : Type :=
  | Trained (n : network) (o : optim)
  | Validated (epoch : Z) (m : metrics) (save : bool).

Definition apply_event (a : Args.t) (log_dir : string) (st : session)
    (ev : event) : result session :=
  match ev with
  | Trained n o =>
      Ok {| net := n; optimizer := o; best_acc := best_acc st;
            disk := disk st; writer := writer st |}
  | Validated epoch m save => test_tail a (Some log_dir) m epoch save st
  end.

Fixpoint run_events (a : Args.t) (log_dir : string) (evs : list event)
    (st : session) : result session :=
  match evs with
  | [] => Ok st
  | ev :: evs => st ← apply_event a log_dir st ev; run_events a log_dir evs st
  end.

Definition sample_metrics (top1 : Q) : metrics :=
  {| loss_avg := 1 # 2; top1_avg := top1; top5_avg := 90 |}.

(** A framework instance for examples: one small network for both model
    names, no GPU, a training pass that changes nothing, and an evaluation
    that measures 50% top-1 accuracy. *)
Definition sample_torch : Torch :=
  {| vgg16_bn := sample_module;
     vgg16_bn_x := sample_module;
     use_cuda := false;
     train_pass := λ _ _ n o, (n, o, sample_metrics 40);
     eval_pass := λ _, sample_metrics 50 |}.

Definition sample_session : session :=
  {| net := Plain sample_module;
     optimizer := SGD sample_module 0.1 0.9 4e-5;
     best_acc := 0; disk := ∅; writer := [] |}.

(** The module behind a network handle. *)
Definition module_of (n : network) : module :=
  match n with
  | Plain m => m
  | DataParallel m _ => m
  end.

(** Arguments of a run resumed from the checkpoint at [p]. *)
Definition args_resumed (p : string) : Args.t :=
  {| Args.model := "vgg16_bn"; Args.dataset := "imagenet"; Args.lr := 0.1;
     Args.n_gpu := 1; Args.batch_size := 128; Args.n_worker := 4;
     Args.lr_type := "exp"; Args.n_epoch := 150; Args.wd := 4e-5;
     Args.seed := None; Args.data_root := None; Args.ckpt_path := Some p;
     Args.eval := false; Args.mixup := false; Args.prune_layer := None |}.

(** Arguments with an unsupported learning-rate policy. *)
Definition args_step3 : Args.t := args_with_lr 0.1 "step3" 150.

(** A checkpoint file as an earlier run left it: epoch 7, accuracy 50. *)
Definition sample_checkpoint : gmap string value :=
  <["epoch" := VInt 7]>
    (<["state_dict" := state_dict_value sample_module]>
       (<["acc" := VFloat 50]>
          (<["optimizer" := VOptim (SGD sample_module 0.001 0.9 4e-5)]> ∅))).

(** The weights an earlier run arrived at, other than those of the fresh
    [sample_module], and its checkpoint file: epoch 7, accuracy 50, an
    optimizer at another learning rate. *)
Definition trained_weights : state_dict :=
  {[ "conv.weight" := [5; 6]%Q; "fc.bias" := [7]%Q ]}.

Definition trained_checkpoint : gmap string value :=
  <["epoch" := VInt 7]>
    (<["state_dict" := VDict (VTensor <$> trained_weights)]>
       (<["acc" := VFloat 50]>
          (<["optimizer" := VOptim (SGD sample_module 0.001 0.9 4e-5)]> ∅))).

(** ** Further definitions *)

(** The value of a decimal numeral read left to right after [acc]. *)
Fixpoint uint_val (acc : Z) (d : Decimal.uint) : Z :=
  match d with
  | Decimal.Nil => acc
  | Decimal.D0 d => uint_val (10 * acc + 0) d
  | Decimal.D1 d => uint_val (10 * acc + 1) d
  | Decimal.D2 d => uint_val (10 * acc + 2) d
  | Decimal.D3 d => uint_val (10 * acc + 3) d
  | Decimal.D4 d => uint_val (10 * acc + 4) d
  | Decimal.D5 d => uint_val (10 * acc + 5) d
  | Decimal.D6 d => uint_val (10 * acc + 6) d
  | Decimal.D7 d => uint_val (10 * acc + 7) d
  | Decimal.D8 d => uint_val (10 * acc + 8) d
  | Decimal.D9 d => uint_val (10 * acc + 9) d
  end.

(** The arguments under which [adjust_learning_rate] returns. *)
Definition policy_returns (a : Args.t) : Prop :=
  (Args.lr_type a = "cos" ∧ Args.n_epoch a ≠ 0) ∨
  Args.lr_type a = "exp" ∨ Args.lr_type a = "fixed".

(** * Properties *)

(** ** Sample runs of the built-ins *)

Example get_output_folder_1_3 :
  get_output_folder "./logs" "name" [("name-run1", true); ("name-run3", true)]
  = "./logs/name-run4".
Proof. reflexivity. Qed.

Example int_samples :
  Py.int "12" = Ok 12 ∧ Py.int " +1_0 " = Ok 10 ∧ Py.int "-5" = Ok (-5) ∧
  Py.int "X" = Err ValueError ∧ Py.int EmptyString = Err ValueError ∧
  Py.int "1__0" = Err ValueError ∧ Py.int "_1" = Err ValueError ∧
  Py.int "1_" = Err ValueError ∧ Py.int "007" = Ok 7.
Proof. repeat split; reflexivity. Qed.

Example split_samples :
  Py.split "a-run-run3" "-run" = Ok ["a"; EmptyString; "3"] ∧
  Py.split "plain" "-run" = Ok ["plain"] ∧
  Py.replace "x/ckpt.pth.tar" ".pth.tar" ".best.pth.tar" = "x/ckpt.best.pth.tar".
Proof. repeat split; reflexivity. Qed.

Example mixup_data_sample :
  (mixup_data [[1; 2]; [3; 4]] [7; 8]%Z (1 # 2) true (1 # 4) [1; 0]%nat
   = Ok ([[(1 # 4) * 1 + (1 - (1 # 4)) * 3; (1 # 4) * 2 + (1 - (1 # 4)) * 4];
          [(1 # 4) * 3 + (1 - (1 # 4)) * 1; (1 # 4) * 4 + (1 - (1 # 4)) * 2]],
         [7; 8]%Z, [8; 7]%Z, 1 # 4))%Q.
Proof. reflexivity. Qed.

(** ** Strings: prefixes, occurrences, [split] and [replace] *)

Module PyFacts.
Import Py.

Lemma append_cons (c : ascii) (s t : string) :
  String c s +:+ t = String c (s +:+ t).
Proof. reflexivity. Qed.

Lemma append_nil (t : string) : EmptyString +:+ t = t.
Proof. reflexivity. Qed.

Lemma append_assoc (s1 s2 s3 : string) :
  (s1 +:+ s2) +:+ s3 = s1 +:+ (s2 +:+ s3).
Proof.
  induction s1 as [|c s1 IH]; [done |].
  rewrite !append_cons. by rewrite IH.
Qed.

Lemma length_append (s t : string) :
  String.length (s +:+ t) = (String.length s + String.length t)%nat.
Proof.
  induction s as [|c s IH]; [done |].
  rewrite append_cons. simpl. by rewrite IH.
Qed.

Lemma prefix_append (p s : string) : is_prefix p (p +:+ s) = true.
Proof.
  induction p as [|c p IH]; [reflexivity |].
  rewrite append_cons. simpl. by rewrite Ascii.eqb_refl.
Qed.

Lemma prefix_inv (p s : string) :
  is_prefix p s = true → ∃ t, s = p +:+ t.
Proof.
  revert s; induction p as [|c p IH]; intros s Hp.
  - by exists s.
  - destruct s as [|d s]; [done |]. simpl in Hp.
    apply andb_prop in Hp as [Hcd Hp]. apply Ascii.eqb_eq in Hcd as ->.
    destruct (IH _ Hp) as [t ->]. by exists t.
Qed.

(** A character foreign to [old] cannot take part in an occurrence of
    [old]: matching [old] at the start of [a ++ c :: b] is matching it
    inside [a]. *)
Lemma prefix_foreign_char (old a b : string) (c : ascii) :
  old ≠ EmptyString → has_char c old = false →
  is_prefix old (a +:+ String c b) = is_prefix old a.
Proof.
  revert a; induction old as [|o old IH]; intros a Hne Hc; [done |].
  simpl in Hc. apply orb_false_elim in Hc as [Hoc Hc].
  destruct a as [|x a].
  - rewrite append_nil. simpl. by rewrite Hoc.
  - rewrite append_cons. simpl.
    destruct (Ascii.eqb o x); [| done].
    destruct old as [|o' old]; [done |]. by apply IH.
Qed.

(** When the first character of a separator does not occur again in it, an
    occurrence cannot straddle the start of a later occurrence. *)
Lemma prefix_no_overlap (c : ascii) (sep' a b : string) :
  has_char c sep' = false →
  is_prefix (String c sep') (a +:+ String c b) = true →
  a = EmptyString ∨ is_prefix (String c sep') a = true.
Proof.
  intros Hc Hp. destruct a as [|x a]; [by left | right].
  rewrite append_cons in Hp. simpl in *.
  destruct (Ascii.eqb c x); [| done].
  destruct sep' as [|o sep']; [done |].
  by rewrite prefix_foreign_char in Hp.
Qed.

Lemma occurs_cons_false (p : string) (c : ascii) (s : string) :
  occurs p (String c s) = false →
  is_prefix p (String c s) = false ∧ occurs p s = false.
Proof.
  intros H. change (is_prefix p (String c s) || occurs p s = false) in H.
  by apply orb_false_elim in H.
Qed.

Lemma split_go_skip (sep p s : string) :
  split_go sep (String.length p) (p +:+ s) = split_go sep 0 s.
Proof.
  induction p as [|c p IH]; [done |]. rewrite append_cons. by simpl.
Qed.

(** At an occurrence of the separator, [split] cuts and resumes after it. *)
Lemma split_go_at_sep (c : ascii) (sep' s : string) :
  split_go (String c sep') 0 (String c sep' +:+ s)
  = EmptyString :: split_go (String c sep') 0 s.
Proof.
  pose proof (prefix_append (String c sep') s) as Hp.
  rewrite append_cons in *. cbn [split_go]. rewrite Hp.
  replace (String.length (String c sep') - 1)%nat with (String.length sep')
    by (simpl; lia).
  by rewrite split_go_skip.
Qed.

Lemma split_go_not_sep (sep : string) (c : ascii) (s : string) :
  is_prefix sep (String c s) = false →
  split_go sep 0 (String c s) = cons_head c (split_go sep 0 s).
Proof. intros H. cbn [split_go]. by rewrite H. Qed.

(** Without an occurrence of the separator the string is the only piece. *)
Lemma split_go_no_occurrence (sep s : string) :
  occurs sep s = false → split_go sep 0 s = [s].
Proof.
  induction s as [|c s IH]; intros Ho; [done |].
  apply occurs_cons_false in Ho as [Hp Ho].
  rewrite split_go_not_sep by done. by rewrite IH.
Qed.

(** The last piece is the text after the last occurrence. *)
Lemma split_go_last_piece (c : ascii) (sep' pre suf : string) :
  has_char c sep' = false →
  occurs (String c sep') suf = false →
  ∃ ps, ps ≠ [] ∧
    split_go (String c sep') 0 (pre +:+ String c sep' +:+ suf) = ps ++ [suf].
Proof.
  intros Hc Hsuf.
  remember (String.length pre) as n eqn:Hn.
  revert pre Hn. induction (lt_wf n) as [n _ IH]; intros pre Hn.
  destruct pre as [|x pre].
  - exists [EmptyString]. split; [done |]. rewrite append_nil.
    rewrite split_go_at_sep. by rewrite split_go_no_occurrence.
  - destruct (is_prefix (String c sep')
                (String x pre +:+ String c sep' +:+ suf)) eqn:Hp.
    + rewrite (append_cons c) in Hp.
      apply prefix_no_overlap in Hp as [? | Hp]; [done | | done].
      apply prefix_inv in Hp as [pre' Hpre]. rewrite Hpre.
      rewrite append_assoc, split_go_at_sep.
      destruct (IH (String.length pre')) with (pre := pre') as (ps & Hps & ->);
        [| done |].
      * subst n. rewrite Hpre, length_append. simpl. lia.
      * by exists (EmptyString :: ps).
    + rewrite (append_cons x pre) in *.
      rewrite split_go_not_sep by done.
      destruct (IH (String.length pre)) with (pre := pre) as (ps & Hps & ->);
        [subst n; simpl; lia | done |].
      destruct ps as [|p ps]; [done |].
      by exists (String x p :: ps).
Qed.

Lemma replace_go_no_occurrence (old new dir b : string) (c : ascii) :
  old ≠ EmptyString → has_char c old = false →
  occurs old dir = false →
  replace_go old new 0 (dir +:+ String c b)
  = dir +:+ replace_go old new 0 (String c b).
Proof.
  intros Hne Hc. induction dir as [|x dir IH]; intros Ho; [done |].
  apply occurs_cons_false in Ho as [Hp Ho].
  pose proof (prefix_foreign_char old (String x dir) b c Hne Hc) as Hf.
  rewrite Hp in Hf. rewrite !append_cons in *.
  cbn [replace_go]. rewrite Hf. by rewrite IH.
Qed.
End PyFacts.

(** ** The run-folder allocator *)

Lemma highest_run_nonneg (listing : list dir_entry) : 0 ≤ highest_run listing.
Proof.
  unfold highest_run. induction (omap entry_run listing); simpl; lia.
Qed.

Lemma highest_run_app (l1 l2 : list dir_entry) :
  highest_run (l1 ++ l2) = Z.max (highest_run l1) (highest_run l2).
Proof.
  unfold highest_run. rewrite omap_app.
  induction (omap entry_run l1) as [|n l IH]; simpl.
  - pose proof (highest_run_nonneg l2). unfold highest_run in *. lia.
  - rewrite IH. lia.
Qed.

Lemma highest_run_cons (e : dir_entry) (l : list dir_entry) :
  highest_run (e :: l)
  = match entry_run e with
    | Some n => Z.max n (highest_run l)
    | None => highest_run l
    end.
Proof. unfold highest_run. simpl. by destruct (entry_run e). Qed.

Lemma scan_entry_max (experiment_id : Z) (e : dir_entry) :
  scan_entry experiment_id e
  = match entry_run e with
    | Some n => Z.max experiment_id n
    | None => experiment_id
    end.
Proof.
  destruct e as [name [|]]; simpl; [| done].
  destruct (run_number name) as [n|]; [| done].
  destruct (Z.gtb_spec n experiment_id); lia.
Qed.

(** The loop computes a running maximum. *)
Lemma scan_listing_max (listing : list dir_entry) (experiment_id : Z) :
  0 ≤ experiment_id →
  fold_left scan_entry listing experiment_id
  = Z.max experiment_id (highest_run listing).
Proof.
  revert experiment_id.
  induction listing as [|e l IH]; intros experiment_id Hid; simpl.
  - unfold highest_run; simpl; lia.
  - rewrite highest_run_cons, scan_entry_max.
    pose proof (highest_run_nonneg l).
    destruct (entry_run e) as [n|]; rewrite IH by lia; lia.
Qed.

Lemma get_output_folder_highest_run (parent_dir env_name : string)
    (listing : list dir_entry) :
  get_output_folder parent_dir env_name listing
  = Py.os_path_join parent_dir env_name +:+ "-run"
    +:+ Py.str_of_int (highest_run listing + 1).
Proof.
  unfold get_output_folder. rewrite scan_listing_max by done.
  pose proof (highest_run_nonneg listing). by rewrite Z.max_r.
Qed.

Lemma run_number_no_sep (folder_name : string) :
  Py.occurs "-run" folder_name = false →
  run_number folder_name = Py.int folder_name.
Proof.
  intros Ho. unfold run_number, Py.split.
  by rewrite PyFacts.split_go_no_occurrence.
Qed.

Lemma run_number_after_last_sep (pre suf : string) :
  Py.occurs "-run" suf = false →
  run_number (pre +:+ "-run" +:+ suf) = Py.int suf.
Proof.
  intros Ho. unfold run_number, Py.split.
  destruct (PyFacts.split_go_last_piece "-" "run" pre suf) as (ps & _ & ->);
    [done.. |].
  simpl. unfold Py.last_item. by rewrite last_snoc.
Qed.

(** In a parent such as [./logs] the run folder is [<parent>/<name>-run<N>]. *)
Lemma os_path_join_plain (parent_dir env_name : string) :
  Py.startswith env_name "/" = false →
  parent_dir ≠ EmptyString → Py.endswith_char parent_dir "/" = false →
  Py.os_path_join parent_dir env_name = parent_dir +:+ "/" +:+ env_name.
Proof.
  intros Hs Hne He. unfold Py.os_path_join. rewrite Hs, He.
  by destruct parent_dir.
Qed.

Lemma highest_run_bounds (listing : list dir_entry) (name : string) (n : Z) :
  (name, true) ∈ listing → run_number name = Ok n → n ≤ highest_run listing.
Proof.
  intros Hin Hn. induction listing as [|e l IH]; [by apply elem_of_nil in Hin |].
  rewrite highest_run_cons. apply elem_of_cons in Hin as [<- | Hin].
  - simpl. rewrite Hn. lia.
  - specialize (IH Hin). destruct (entry_run e); lia.
Qed.

Lemma highest_run_attained (listing : list dir_entry) :
  highest_run listing = 0 ∨
  ∃ folder_name, (folder_name, true) ∈ listing ∧
                 run_number folder_name = Ok (highest_run listing).
Proof.
  induction listing as [|[name is_dir] l IH]; [by left |].
  rewrite highest_run_cons.
  assert (highest_run l = 0 ∨
          ∃ folder_name, (folder_name, true) ∈ (name, is_dir) :: l ∧
                         run_number folder_name = Ok (highest_run l)) as IH'.
  { destruct IH as [? | (f & Hin & Hf)]; [by left | right].
    exists f. split; [by apply elem_of_cons; right | done]. }
  pose proof (highest_run_nonneg l) as Hnn.
  destruct is_dir; simpl; [| done].
  destruct (run_number name) as [n|] eqn:Hn; [| done].
  destruct (Z.max_spec n (highest_run l)) as [[Hlt ->] | [Hle ->]]; [done |].
  right. exists name. split; [apply elem_of_cons; by left | done].
Qed.

(** C8, as stated, fails: with [name-run1] in the parent, the only folder
    ending in [name-run<N>] has N = 1, so the claimed next folder is
    [name-run2]; with an unrelated [other-run9] beside it, and also with a
    folder [9] beside it, [get_output_folder] allocates [name-run10]. *)
Lemma get_output_folder_counts_other_names :
  let listing := [("name-run1", true); ("other-run9", true)] in
  let listing' := [("name-run1", true); ("9", true)] in
  Claimed.output_folder "./logs" "name" listing = "./logs/name-run2" ∧
  get_output_folder "./logs" "name" listing = "./logs/name-run10" ∧
  get_output_folder "./logs" "name" listing
  ≠ Claimed.output_folder "./logs" "name" listing ∧
  Claimed.output_folder "./logs" "name" listing' = "./logs/name-run2" ∧
  get_output_folder "./logs" "name" listing' = "./logs/name-run10" ∧
  get_output_folder "./logs" "name" listing'
  ≠ Claimed.output_folder "./logs" "name" listing'.
Proof. repeat split; vm_compute; congruence. Qed.

(** C8, amended: [get_output_folder] reads, for every subdirectory of the
    parent, the text after the last [-run] of its name (the whole name when
    it has no [-run]), whatever precedes it; it takes the integers [N] so
    written and allocates [<parent>/<name>-run<max(N)+1>], the maximum taken
    with 0.  With [name-run1] and [name-run3] that is [name-run4]; with no
    folder it is [name-run1]; a folder [name-runX] does not change the
    result. *)
Theorem get_output_folder_next_run (parent_dir env_name : string) :
  (∀ listing,
     get_output_folder parent_dir env_name listing
     = Py.os_path_join parent_dir env_name +:+ "-run"
       +:+ Py.str_of_int (highest_run listing + 1) ∧
     0 ≤ highest_run listing ∧
     (∀ folder_name n,
        (folder_name, true) ∈ listing → run_number folder_name = Ok n →
        n ≤ highest_run listing) ∧
     (highest_run listing = 0 ∨
      ∃ folder_name, (folder_name, true) ∈ listing ∧
                     run_number folder_name = Ok (highest_run listing))) ∧
  (∀ folder_name,
     Py.occurs "-run" folder_name = false →
     run_number folder_name = Py.int folder_name) ∧
  (∀ pre suf,
     Py.occurs "-run" suf = false →
     run_number (pre +:+ "-run" +:+ suf) = Py.int suf) ∧
  (Py.startswith env_name "/" = false → parent_dir ≠ EmptyString →
   Py.endswith_char parent_dir "/" = false →
   Py.os_path_join parent_dir env_name = parent_dir +:+ "/" +:+ env_name) ∧
  get_output_folder parent_dir env_name
    [(env_name +:+ "-run1", true); (env_name +:+ "-run3", true)]
  = Py.os_path_join parent_dir env_name +:+ "-run4" ∧
  get_output_folder parent_dir env_name []
  = Py.os_path_join parent_dir env_name +:+ "-run1" ∧
  (∀ l1 l2,
     get_output_folder parent_dir env_name
       (l1 ++ (env_name +:+ "-runX", true) :: l2)
     = get_output_folder parent_dir env_name (l1 ++ l2)).
Proof.
  split.
  { intros listing. split; [apply get_output_folder_highest_run |].
    split; [apply highest_run_nonneg |].
    split; [apply highest_run_bounds | apply highest_run_attained]. }
  split; [apply run_number_no_sep |].
  split; [apply run_number_after_last_sep |].
  split; [apply os_path_join_plain |].
  split; [| split].
  - rewrite get_output_folder_highest_run, !highest_run_cons. simpl.
    change (env_name +:+ "-run1") with (env_name +:+ "-run" +:+ "1").
    change (env_name +:+ "-run3") with (env_name +:+ "-run" +:+ "3").
    by rewrite !run_number_after_last_sep.
  - by rewrite get_output_folder_highest_run.
  - intros l1 l2. rewrite !get_output_folder_highest_run.
    rewrite !highest_run_app, highest_run_cons. simpl.
    change (env_name +:+ "-runX") with (env_name +:+ "-run" +:+ "X").
    by rewrite run_number_after_last_sep.
Qed.

Lemma get_output_folder_next_run_witness :
  get_output_folder "./logs" "name"
    [("name-run1", true); ("9", true); ("name-runX", true)]
  = "./logs/name-run10" ∧
  run_number "9" = Ok 9 ∧
  run_number ("other" +:+ "-run" +:+ "9") = Ok 9 ∧
  Py.os_path_join "./logs" "name" = "./logs" +:+ "/" +:+ "name".
Proof.
  destruct (get_output_folder_next_run "./logs" "name")
    as (Hall & Hwhole & Hlast & Hjoin & _).
  destruct (Hall [("name-run1", true); ("9", true); ("name-runX", true)])
    as (Hgof & _).
  split; [exact Hgof |].
  split; [exact (Hwhole "9" eq_refl) |].
  split; [exact (Hlast "other" "9" eq_refl) |].
  apply Hjoin; [reflexivity | discriminate | reflexivity].
Defined.

(** C9: the text after the last [-run] of a folder name, or the whole name
    when it has no [-run], is what [int] parses, whatever the run name is;
    so a folder [other-run9], or a folder [9], among folders with run numbers
    up to 9 makes the next folder of any run name [<name>-run10]. *)
Theorem run_number_ignores_run_name :
  (∀ folder_name,
     Py.occurs "-run" folder_name = false →
     run_number folder_name = Py.int folder_name) ∧
  (∀ pre suf,
     Py.occurs "-run" suf = false →
     run_number (pre +:+ "-run" +:+ suf) = Py.int suf) ∧
  (∀ parent_dir env_name folder_name l1 l2,
     folder_name = "other-run9" ∨ folder_name = "9" →
     highest_run (l1 ++ l2) ≤ 9 →
     get_output_folder parent_dir env_name (l1 ++ (folder_name, true) :: l2)
     = Py.os_path_join parent_dir env_name +:+ "-run10").
Proof.
  split; [apply run_number_no_sep |].
  split; [apply run_number_after_last_sep |].
  intros parent_dir env_name folder_name l1 l2 Hname Hle.
  rewrite get_output_folder_highest_run.
  rewrite highest_run_app in *. rewrite highest_run_cons.
  pose proof (highest_run_nonneg l1). pose proof (highest_run_nonneg l2).
  assert (entry_run (folder_name, true) = Some 9) as ->
    by (destruct Hname as [-> | ->]; reflexivity).
  by replace (Z.max (highest_run l1) (Z.max 9 (highest_run l2)) + 1) with 10
    by lia.
Qed.

Lemma run_number_ignores_run_name_witness :
  run_number "7" = Py.int "7" ∧
  run_number ("other" +:+ "-run" +:+ "9") = Py.int "9" ∧
  get_output_folder "./logs" "vgg16_bn_imagenet_finetune"
    ([("vgg16_bn_imagenet_finetune-run2", true)]
     ++ ("other-run9", true) :: [("notes.txt", false)])
  = Py.os_path_join "./logs" "vgg16_bn_imagenet_finetune" +:+ "-run10".
Proof.
  destruct run_number_ignores_run_name as (H1 & H2 & H3).
  split; [apply H1; reflexivity |].
  split; [apply H2; reflexivity |].
  apply H3; [by left | vm_compute; discriminate].
Defined.

(** ** The learning-rate scheduler *)

Section SchedulerFacts.
Local Open Scope R_scope.

Lemma adjust_learning_rate_policy (a : Args.t) (o : optim) (epoch : Z) :
  fst <$> adjust_learning_rate a o epoch = lr_policy a epoch.
Proof.
  unfold adjust_learning_rate. by destruct (lr_policy a epoch).
Qed.

Lemma adjust_learning_rate_writes (a : Args.t) (o : optim) (epoch : Z)
    (lr : R) :
  lr_policy a epoch = Ok lr →
  ∃ o', adjust_learning_rate a o epoch = Ok (lr, o') ∧ lr_written lr o o'.
Proof.
  intros Hlr. unfold adjust_learning_rate. rewrite Hlr. simpl.
  eexists; split; [done |]. split; [| split]; simpl.
  - by rewrite length_fmap.
  - done.
  - intros i g' Hg. rewrite list_lookup_fmap in Hg.
    destruct (param_groups o !! i) as [g|]; simplify_eq/=.
    split; [done |]. by exists g.
Qed.

Lemma lr_policy_cos (a : Args.t) (epoch : Z) :
  Args.lr_type a = "cos" → Args.n_epoch a ≠ 0%Z →
  lr_policy a epoch
  = Ok (0.5 * Args.lr a * (1 + cos (PI * IZR epoch / IZR (Args.n_epoch a)))).
Proof.
  intros Ht Hn. unfold lr_policy. rewrite Ht. simpl.
  by destruct (Z.eqb_spec (Args.n_epoch a) 0).
Qed.

Lemma lr_policy_exp (a : Args.t) (epoch : Z) :
  Args.lr_type a = "exp" →
  lr_policy a epoch = Ok (Args.lr a * powerRZ 0.96 epoch).
Proof.
  intros Ht. unfold lr_policy. rewrite Ht. simpl. by rewrite Z.div_1_r.
Qed.

Lemma lr_policy_fixed (a : Args.t) (epoch : Z) :
  Args.lr_type a = "fixed" → lr_policy a epoch = Ok (Args.lr a).
Proof. intros Ht. unfold lr_policy. by rewrite Ht. Qed.

Lemma lr_policy_unsupported (a : Args.t) (epoch : Z) :
  Args.lr_type a ≠ "cos" → Args.lr_type a ≠ "exp" →
  Args.lr_type a ≠ "fixed" →
  lr_policy a epoch = Err NotImplementedError.
Proof.
  intros H1 H2 H3. unfold lr_policy.
  apply String.eqb_neq in H1, H2, H3. by rewrite H1, H2, H3.
Qed.

Lemma powerRZ_096_pos (z : Z) : 0 < powerRZ 0.96 z.
Proof. apply powerRZ_lt. lra. Qed.

Lemma powerRZ_096_succ (z : Z) :
  powerRZ 0.96 (z + 1) = powerRZ 0.96 z * 0.96.
Proof. rewrite powerRZ_add by lra. simpl. lra. Qed.
End SchedulerFacts.

Section SchedulerClaims.
Local Open Scope R_scope.

(** C4: for every epoch and base learning rate, [adjust_learning_rate]
    computes [0.5 * lr0 * (1 + cos (pi * epoch / n_epoch))] under [cos]
    (where [n_epoch] is not 0, so that the quotient exists),
    [lr0 * 0.96 ^ epoch] under [exp] and [lr0] under [fixed], and writes the
    value into every parameter group. *)
Theorem adjust_learning_rate_formula (a : Args.t) (o : optim) (epoch : Z) :
  let lr0 := Args.lr a in
  (Args.lr_type a = "cos" → Args.n_epoch a ≠ 0%Z →
     sets_lr a o epoch
       (0.5 * lr0 * (1 + cos (PI * IZR epoch / IZR (Args.n_epoch a))))) ∧
  (Args.lr_type a = "exp" →
     sets_lr a o epoch (lr0 * powerRZ 0.96 epoch) ∧
     ∀ n : nat, epoch = Z.of_nat n → powerRZ 0.96 epoch = 0.96 ^ n) ∧
  (Args.lr_type a = "fixed" → sets_lr a o epoch lr0).
Proof.
  intros lr0. unfold sets_lr. repeat split.
  - intros Ht Hn. apply adjust_learning_rate_writes. by apply lr_policy_cos.
  - apply adjust_learning_rate_writes. by apply lr_policy_exp.
  - intros n ->. by rewrite pow_powerRZ.
  - intros Ht. apply adjust_learning_rate_writes. by apply lr_policy_fixed.
Qed.

Lemma adjust_learning_rate_formula_witness :
  sets_lr (args_with_lr 0.1 "cos" 150) (SGD sample_module 0.1 0.9 4e-5) 3
    (0.5 * 0.1 * (1 + cos (PI * IZR 3 / IZR 150))) ∧
  sets_lr (args_with_lr 0.1 "exp" 150) (SGD sample_module 0.1 0.9 4e-5) 3
    (0.1 * powerRZ 0.96 3) ∧
  powerRZ 0.96 3 = 0.96 ^ 3 ∧
  sets_lr (args_with_lr 0.1 "fixed" 150) (SGD sample_module 0.1 0.9 4e-5) 3
    0.1.
Proof.
  pose proof (adjust_learning_rate_formula (args_with_lr 0.1 "cos" 150)
                (SGD sample_module 0.1 0.9 4e-5) 3) as (Hcos & _ & _).
  pose proof (adjust_learning_rate_formula (args_with_lr 0.1 "exp" 150)
                (SGD sample_module 0.1 0.9 4e-5) 3) as (_ & Hexp & _).
  pose proof (adjust_learning_rate_formula (args_with_lr 0.1 "fixed" 150)
                (SGD sample_module 0.1 0.9 4e-5) 3) as (_ & _ & Hfixed).
  destruct (Hexp eq_refl) as [Hexp1 Hexp2].
  split; [apply Hcos; [reflexivity | simpl; lia] |].
  split; [exact Hexp1 |].
  split; [apply (Hexp2 3%nat); reflexivity |].
  apply Hfixed; reflexivity.
Defined.

(** C5, as stated, fails: under [exp] with base learning rate 0 the rate at
    epoch 1 is 0, not smaller than the rate 0 at epoch 0. *)
Lemma exp_policy_constant_at_zero_lr :
  let a := args_with_lr 0 "exp" 150 in
  let o := SGD sample_module 0 0.9 4e-5 in
  fst <$> adjust_learning_rate a o 0 = Ok 0 ∧
  fst <$> adjust_learning_rate a o 1 = Ok 0 ∧
  ¬ (0 < 0).
Proof.
  intros a o. rewrite !adjust_learning_rate_policy.
  rewrite !lr_policy_exp by done. simpl.
  split; [f_equal; lra |]. split; [f_equal; lra | lra].
Qed.

(** C5, amended: for [n_epoch > 0], [cos] returns [lr0] at epoch 0 and 0 at
    epoch [n_epoch]; [exp] returns [lr0] at epoch 0 and, when [lr0 > 0], a
    strictly smaller value at the later of any two consecutive epochs;
    [fixed] returns [lr0] at every epoch. *)
Theorem scheduler_endpoints (a : Args.t) (o : optim) :
  let lr0 := Args.lr a in
  let lr_at epoch := fst <$> adjust_learning_rate a o epoch in
  (Args.lr_type a = "cos" → (0 < Args.n_epoch a)%Z →
     lr_at 0%Z = Ok lr0 ∧ lr_at (Args.n_epoch a) = Ok 0) ∧
  (Args.lr_type a = "exp" →
     lr_at 0%Z = Ok lr0 ∧
     (0 < lr0 → ∀ epoch, ∃ v0 v1,
        lr_at epoch = Ok v0 ∧ lr_at (epoch + 1)%Z = Ok v1 ∧ v1 < v0)) ∧
  (Args.lr_type a = "fixed" → ∀ epoch, lr_at epoch = Ok lr0).
Proof.
  intros lr0 lr_at. subst lr_at. cbv beta.
  split; [| split].
  - intros Ht Hn. rewrite !adjust_learning_rate_policy.
    rewrite !lr_policy_cos by (done || lia).
    assert (IZR (Args.n_epoch a) ≠ 0) as Hn0 by (apply not_0_IZR; lia).
    split; f_equal.
    + replace (PI * 0 / IZR (Args.n_epoch a)) with 0 by (field; done).
      rewrite cos_0. subst lr0. lra.
    + replace (PI * IZR (Args.n_epoch a) / IZR (Args.n_epoch a)) with PI
        by (field; done).
      rewrite cos_PI. lra.
  - intros Ht. split.
    + rewrite adjust_learning_rate_policy, lr_policy_exp by done.
      f_equal. simpl. subst lr0. lra.
    + intros Hpos epoch. do 2 eexists.
      rewrite !adjust_learning_rate_policy, !lr_policy_exp by done.
      split; [done |]. split; [done |].
      rewrite powerRZ_096_succ.
      pose proof (powerRZ_096_pos epoch). subst lr0. nra.
  - intros Ht epoch.
    by rewrite adjust_learning_rate_policy, lr_policy_fixed.
Qed.

Lemma scheduler_endpoints_witness :
  (fst <$> adjust_learning_rate (args_with_lr 0.1 "cos" 150)
             (SGD sample_module 0.1 0.9 4e-5) 0 = Ok 0.1 ∧
   fst <$> adjust_learning_rate (args_with_lr 0.1 "cos" 150)
             (SGD sample_module 0.1 0.9 4e-5) 150 = Ok 0) ∧
  (∃ v0 v1,
     fst <$> adjust_learning_rate (args_with_lr 0.1 "exp" 150)
               (SGD sample_module 0.1 0.9 4e-5) 7 = Ok v0 ∧
     fst <$> adjust_learning_rate (args_with_lr 0.1 "exp" 150)
               (SGD sample_module 0.1 0.9 4e-5) (7 + 1) = Ok v1 ∧
     v1 < v0) ∧
  fst <$> adjust_learning_rate (args_with_lr 0.1 "fixed" 150)
            (SGD sample_module 0.1 0.9 4e-5) 7 = Ok 0.1.
Proof.
  pose proof (scheduler_endpoints (args_with_lr 0.1 "cos" 150)
                (SGD sample_module 0.1 0.9 4e-5)) as (Hcos & _ & _).
  pose proof (scheduler_endpoints (args_with_lr 0.1 "exp" 150)
                (SGD sample_module 0.1 0.9 4e-5)) as (_ & Hexp & _).
  pose proof (scheduler_endpoints (args_with_lr 0.1 "fixed" 150)
                (SGD sample_module 0.1 0.9 4e-5)) as (_ & _ & Hfixed).
  split; [apply Hcos; [reflexivity | simpl; lia] |].
  split; [apply (Hexp eq_refl); simpl; lra |].
  apply Hfixed; reflexivity.
Defined.
End SchedulerClaims.

(** ** Mixup *)

Section MixupFacts.
Local Open Scope Q_scope.

Lemma gather_in_range {A : Type} (x : list A) (index : list nat) :
  Forall (λ i, i < length x)%nat index →
  ∃ r, gather x index = Ok r ∧ length r = length index ∧
       ∀ i p, index !! i = Some p → r !! i = x !! p.
Proof.
  intros Hin. unfold gather.
  destruct (mapM_is_Some_2 (λ i, x !! i) index) as [r Hr].
  { eapply Forall_impl; [exact Hin |]. intros i Hi. simpl.
    by apply lookup_lt_is_Some_2. }
  rewrite Hr. exists r. apply mapM_Some_1 in Hr.
  split; [done |]. split; [by erewrite <- Forall2_length |].
  intros i p Hp.
  destruct (Forall2_lookup_l _ _ _ _ _ Hr Hp) as (a & Ha & Hxa).
  by rewrite Ha, Hxa.
Qed.

Lemma randperm_in_range (n : nat) (randperm : list nat) :
  randperm ≡ₚ seq 0 n →
  Forall (λ i, i < n)%nat randperm ∧ length randperm = n.
Proof.
  intros Hp. split.
  - rewrite Hp. apply Forall_seq. intros; lia.
  - by rewrite Hp, length_seq.
Qed.

(** One row of [lam * x + (1 - lam) * x[index]]. *)
Lemma mixed_row (lam : Q) (x x_index : batch) (i : nat) (row row_p : tensor) :
  x !! i = Some row → x_index !! i = Some row_p →
  add (scale lam x) (scale (1 - lam) x_index) !! i
  = Some (zip_with (λ u v, lam * u + (1 - lam) * v) row row_p).
Proof.
  intros Hrow Hp. unfold add, scale.
  rewrite lookup_zip_with, !list_lookup_fmap, Hrow, Hp. simpl.
  by rewrite zip_with_fmap_l, zip_with_fmap_r.
Qed.

(** With [lam = 1] a blended row has the entries of the row itself. *)
Lemma blend_one_row (row row_p : tensor) :
  length row = length row_p →
  Forall2 Qeq (zip_with (λ u v, 1 * u + (1 - 1) * v) row row_p) row.
Proof.
  revert row_p. induction row as [|u row IH]; intros [|v row_p] Hlen;
    simplify_eq/=; constructor; [ring | by apply IH].
Qed.
End MixupFacts.

Section MixupClaims.
Local Open Scope Q_scope.

(** C7: for a batch [x] of samples of one size, labels [y] and a permutation
    [randperm] of the batch indices, [mixup_data] returns [y] and
    [y[randperm]] as the two label sets and a blended batch whose row [i]
    is [lam * x[i] + (1 - lam) * x[randperm[i]]], entry by entry; for
    [alpha <= 0], [lam] is 1 and the blended batch has the entries of [x];
    for [alpha > 0], [lam] is the drawn value; and [mixup_criterion] is
    [lam * L(pred, y) + (1 - lam) * L(pred, y[randperm])]. *)
Theorem mixup_semantics (x : batch) (y : list Z) (alpha : Q)
    (use_cuda : bool) (beta_sample : Q) (randperm : list nat) (d : nat) :
  randperm ≡ₚ seq 0 (length x) →
  length y = length x →
  Forall (λ row, length row = d) x →
  ∃ mixed_x y_b lam,
    mixup_data x y alpha use_cuda beta_sample randperm
    = Ok (mixed_x, y, y_b, lam) ∧
    (alpha <= 0 → lam = 1 ∧ Forall2 (Forall2 Qeq) mixed_x x) ∧
    (0 < alpha → lam = beta_sample) ∧
    length mixed_x = length x ∧ length y_b = length y ∧
    (∀ i p row row_p,
       randperm !! i = Some p → x !! i = Some row → x !! p = Some row_p →
       mixed_x !! i
       = Some (zip_with (λ u v, lam * u + (1 - lam) * v) row row_p) ∧
       y_b !! i = y !! p) ∧
    (∀ (P : Type) (criterion : P → list Z → Q) (pred : P),
       mixup_criterion criterion pred y y_b lam
       = lam * criterion pred y + (1 - lam) * criterion pred y_b).
Proof.
  intros Hperm Hy Hrows.
  destruct (randperm_in_range _ _ Hperm) as [Hin Hlen].
  destruct (gather_in_range x randperm Hin) as (xp & Hxp & Hxplen & Hxpi).
  destruct (gather_in_range y randperm) as (yp & Hyp & Hyplen & Hypi);
    [by rewrite Hy |].
  unfold mixup_data. rewrite Hxp, Hyp. simpl.
  set (lam := if Qlt_le_dec 0 alpha then beta_sample else 1).
  exists (add (scale lam x) (scale (1 - lam) xp)), yp, lam.
  assert (length (add (scale lam x) (scale (1 - lam) xp)) = length x) as Hl.
  { unfold add, scale. rewrite length_zip_with, !length_fmap. lia. }
  assert (∀ i p row row_p,
            randperm !! i = Some p → x !! i = Some row →
            x !! p = Some row_p →
            add (scale lam x) (scale (1 - lam) xp) !! i
            = Some (zip_with (λ u v, lam * u + (1 - lam) * v) row row_p))
    as Hrow.
  { intros i p row row_p Hi Hr Hrp. apply mixed_row; [done |].
    by rewrite (Hxpi _ _ Hi). }
  split; [done |]. split; [| split; [| split; [| split; [| split]]]].
  - intros Hle. assert (lam = 1) as Hlam.
    { subst lam. destruct (Qlt_le_dec 0 alpha) as [Hlt|]; [| done].
      exfalso. by apply (Qlt_not_le _ _ Hlt). }
    split; [done |].
    apply Forall2_same_length_lookup_2; [done |].
    intros i mrow row Hm Hr.
    destruct (lookup_lt_is_Some_2 randperm i) as [p Hp].
    { rewrite Hlen. by apply lookup_lt_Some in Hr. }
    destruct (lookup_lt_is_Some_2 x p) as [row_p Hrp].
    { eapply Forall_lookup_1 in Hin; [| exact Hp]. done. }
    rewrite (Hrow _ _ _ _ Hp Hr Hrp) in Hm. simplify_eq. rewrite Hlam.
    apply blend_one_row.
    rewrite (Forall_lookup_1 _ _ _ _ Hrows Hr).
    by rewrite (Forall_lookup_1 _ _ _ _ Hrows Hrp).
  - intros Hlt. subst lam.
    destruct (Qlt_le_dec 0 alpha) as [| Hle]; [done |].
    exfalso. by apply (Qlt_not_le _ _ Hlt).
  - done.
  - lia.
  - intros i p row row_p Hi Hr Hrp. split; [by eapply Hrow | by apply Hypi].
  - done.
Qed.

Lemma mixup_semantics_witness :
  ∃ mixed_x y_b lam,
    mixup_data [[1; 2]; [3; 4]] [7; 8]%Z (1 # 2) true (1 # 4) [1; 0]%nat
    = Ok (mixed_x, [7; 8]%Z, y_b, lam) ∧
    (1 # 2 <= 0 → lam = 1 ∧ Forall2 (Forall2 Qeq) mixed_x [[1; 2]; [3; 4]]) ∧
    (0 < 1 # 2 → lam = 1 # 4) ∧
    length mixed_x = 2%nat ∧ length y_b = 2%nat ∧
    (∀ i p row row_p,
       [1; 0]%nat !! i = Some p →
       [[1; 2]; [3; 4]] !! i = Some row →
       [[1; 2]; [3; 4]] !! p = Some row_p →
       mixed_x !! i
       = Some (zip_with (λ u v, lam * u + (1 - lam) * v) row row_p) ∧
       y_b !! i = [7; 8]%Z !! p) ∧
    (∀ (P : Type) (criterion : P → list Z → Q) (pred : P),
       mixup_criterion criterion pred [7; 8]%Z y_b lam
       = lam * criterion pred [7; 8]%Z + (1 - lam) * criterion pred y_b).
Proof.
  apply (mixup_semantics [[1; 2]; [3; 4]] [7; 8]%Z (1 # 2) true (1 # 4)
           [1; 0]%nat 2).
  - apply perm_swap.
  - reflexivity.
  - repeat constructor.
Defined.
End MixupClaims.

(** ** Checkpoint paths *)

Module PathFacts.
Import Py PyFacts.

Lemma replace_go_skip (old new p s : string) :
  replace_go old new (String.length p) (p +:+ s) = replace_go old new 0 s.
Proof.
  induction p as [|c p IH]; [done |]. rewrite append_cons. by simpl.
Qed.

Lemma replace_go_at_old (c : ascii) (old' new s : string) :
  replace_go (String c old') new 0 (String c old' +:+ s)
  = new +:+ replace_go (String c old') new 0 s.
Proof.
  pose proof (prefix_append (String c old') s) as Hp.
  rewrite append_cons in *. cbn [replace_go]. rewrite Hp.
  replace (String.length (String c old') - 1)%nat with (String.length old')
    by (simpl; lia).
  by rewrite replace_go_skip.
Qed.

Lemma replace_go_not_old (old new : string) (c : ascii) (s : string) :
  is_prefix old (String c s) = false →
  replace_go old new 0 (String c s) = String c (replace_go old new 0 s).
Proof. intros H. cbn [replace_go]. by rewrite H. Qed.

(** Replacing by a longer text never shortens a string, *)
Lemma replace_go_length_le (c : ascii) (old' new s : string) :
  (String.length (String c old') ≤ String.length new)%nat →
  (String.length s
   ≤ String.length (replace_go (String c old') new 0 s))%nat.
Proof.
  intros Hlen. remember (String.length s) as n eqn:Hn.
  revert s Hn. induction (lt_wf n) as [n _ IH]; intros s Hn.
  destruct s as [|x s]; [simpl in *; lia |].
  destruct (is_prefix (String c old') (String x s)) eqn:Hp.
  - apply prefix_inv in Hp as [t Ht]. rewrite Ht, replace_go_at_old.
    rewrite Hn, Ht, !length_append.
    assert (String.length t ≤ String.length
              (replace_go (String c old') new 0 t))%nat; [| lia].
    eapply (IH (String.length t)); [| done].
    rewrite Hn, Ht, length_append. simpl. lia.
  - rewrite replace_go_not_old by done. simpl in *.
    assert (String.length s ≤ String.length
              (replace_go (String c old') new 0 s))%nat; [| lia].
    eapply (IH (String.length s)); [lia | done].
Qed.

(** and lengthens it when there is an occurrence to replace. *)
Lemma replace_go_length_lt (c : ascii) (old' new s : string) :
  (String.length (String c old') < String.length new)%nat →
  occurs (String c old') s = true →
  (String.length s
   < String.length (replace_go (String c old') new 0 s))%nat.
Proof.
  intros Hlen. induction s as [|x s IH]; intros Ho; [done |].
  destruct (is_prefix (String c old') (String x s)) eqn:Hp.
  - apply prefix_inv in Hp as [t Ht]. rewrite Ht, replace_go_at_old.
    rewrite !length_append.
    pose proof (replace_go_length_le c old' new t). lia.
  - rewrite replace_go_not_old by done.
    change (is_prefix (String c old') (String x s)
            || occurs (String c old') s = true) in Ho.
    rewrite Hp in Ho. simpl in *. apply IH in Ho. lia.
Qed.

Lemma occurs_prefix (p s : string) :
  is_prefix p s = true → occurs p s = true.
Proof. intros Hp. destruct s; simpl; by rewrite Hp. Qed.

Lemma occurs_append (p a b : string) : occurs p (a +:+ p +:+ b) = true.
Proof.
  induction a as [|x a IH].
  - rewrite append_nil. apply occurs_prefix, prefix_append.
  - rewrite append_cons.
    change (is_prefix p (String x (a +:+ p +:+ b))
            || occurs p (a +:+ p +:+ b) = true).
    rewrite IH. apply orb_true_r.
Qed.

Lemma ckpt_file_occurs (checkpoint_dir : string) :
  occurs ".pth.tar" (ckpt_file checkpoint_dir) = true.
Proof.
  unfold ckpt_file, os_path_join.
  change (startswith "ckpt.pth.tar" "/") with false. cbv iota.
  destruct (_ || _).
  - pose proof (occurs_append ".pth.tar" (checkpoint_dir +:+ "ckpt") EmptyString)
      as Ho.
    by rewrite append_assoc in Ho.
  - pose proof (occurs_append ".pth.tar" (checkpoint_dir +:+ "/ckpt") EmptyString)
      as Ho.
    by rewrite append_assoc in Ho.
Qed.
End PathFacts.

Lemma best_file_ne (checkpoint_dir : string) :
  ckpt_file checkpoint_dir ≠ best_file checkpoint_dir.
Proof.
  intros Heq. unfold best_file in Heq.
  pose proof (PathFacts.replace_go_length_lt "." "pth.tar" ".best.pth.tar"
                (ckpt_file checkpoint_dir)) as Hlt.
  unfold Py.replace in Heq. rewrite <- Heq in Hlt.
  specialize (Hlt ltac:(simpl; lia) (PathFacts.ckpt_file_occurs _)). lia.
Qed.

(** When the directory path has no [.pth.tar] in it, the copy goes to
    [ckpt.best.pth.tar] in the same directory. *)
Lemma best_file_plain (checkpoint_dir : string) :
  Py.occurs ".pth.tar" checkpoint_dir = false →
  best_file checkpoint_dir = Py.os_path_join checkpoint_dir "ckpt.best.pth.tar".
Proof.
  intros Ho. unfold best_file, ckpt_file, Py.os_path_join, Py.replace.
  change (Py.startswith "ckpt.pth.tar" "/") with false.
  change (Py.startswith "ckpt.best.pth.tar" "/") with false. cbv iota.
  destruct (_ || _).
  - by rewrite (PyFacts.replace_go_no_occurrence _ _ _ "kpt.pth.tar" "c").
  - by rewrite (PyFacts.replace_go_no_occurrence _ _ _ "ckpt.pth.tar" "/").
Qed.

Lemma save_checkpoint_result (state : value) (is_best : bool)
    (checkpoint_dir : string) (disk : files) :
  save_checkpoint state is_best checkpoint_dir disk
  = Ok (if is_best
        then <[best_file checkpoint_dir := state]>
               (<[ckpt_file checkpoint_dir := state]> disk)
        else <[ckpt_file checkpoint_dir := state]> disk).
Proof.
  unfold save_checkpoint, torch_save, copyfile.
  fold (ckpt_file checkpoint_dir). fold (best_file checkpoint_dir).
  destruct is_best; [| done].
  pose proof (best_file_ne checkpoint_dir) as Hne.
  apply String.eqb_neq in Hne. rewrite Hne.
  by rewrite lookup_insert_eq.
Qed.

Lemma test_tail_no_save (a : Args.t) (log_dir : option string) (m : metrics)
    (epoch : Z) (st : session) :
  test_tail a log_dir m epoch false st = Ok st.
Proof. done. Qed.

Lemma test_tail_new_best (a : Args.t) (log_dir : string) (m : metrics)
    (epoch : Z) (st : session) :
  (best_acc st < top1_avg m)%Q →
  test_tail a (Some log_dir) m epoch true st
  = Ok {| net := net st; optimizer := optimizer st;
          best_acc := top1_avg m;
          disk :=
            <[best_file log_dir :=
                checkpoint_state a epoch (net st) (optimizer st) m]>
              (<[ckpt_file log_dir :=
                   checkpoint_state a epoch (net st) (optimizer st) m]>
                 (disk st));
          writer := writer st ++ test_scalars m epoch |}.
Proof.
  intros Hlt. unfold test_tail. rewrite save_checkpoint_result.
  destruct (Qlt_le_dec (best_acc st) (top1_avg m)) as [| Hle]; [done |].
  exfalso. by apply (Qlt_not_le _ _ Hlt).
Qed.

Lemma test_tail_not_best (a : Args.t) (log_dir : string) (m : metrics)
    (epoch : Z) (st : session) :
  (top1_avg m <= best_acc st)%Q →
  test_tail a (Some log_dir) m epoch true st
  = Ok {| net := net st; optimizer := optimizer st;
          best_acc := best_acc st;
          disk :=
            <[ckpt_file log_dir :=
                checkpoint_state a epoch (net st) (optimizer st) m]>
              (disk st);
          writer := writer st ++ test_scalars m epoch |}.
Proof.
  intros Hle. unfold test_tail. rewrite save_checkpoint_result.
  destruct (Qlt_le_dec (best_acc st) (top1_avg m)) as [Hlt |]; [| done].
  exfalso. by apply (Qlt_not_le _ _ Hlt).
Qed.

(** An evaluation epoch with [save] set returns, and never lowers
    [best_acc]. *)
Lemma test_tail_monotone (a : Args.t) (log_dir : string) (m : metrics)
    (epoch : Z) (save : bool) (st : session) :
  ∃ st', test_tail a (Some log_dir) m epoch save st = Ok st' ∧
         (best_acc st <= best_acc st')%Q.
Proof.
  destruct save; [| exists st; split; [done | apply Qle_refl]].
  destruct (Qlt_le_dec (best_acc st) (top1_avg m)) as [Hlt | Hle].
  - rewrite test_tail_new_best by done. eexists; split; [done |].
    simpl. by apply Qlt_le_weak.
  - rewrite test_tail_not_best by done. eexists; split; [done |].
    simpl. apply Qle_refl.
Qed.

(** ** Sequences of training passes and evaluation epochs *)

Lemma run_events_monotone (a : Args.t) (log_dir : string) (evs : list event)
    (st : session) :
  ∃ st', run_events a log_dir evs st = Ok st' ∧ (best_acc st <= best_acc st')%Q.
Proof.
  revert st. induction evs as [|ev evs IH]; intros st.
  - exists st. split; [done | apply Qle_refl].
  - assert (∃ st1, apply_event a log_dir st ev = Ok st1 ∧
                   (best_acc st <= best_acc st1)%Q) as (st1 & Hev & Hle).
    { destruct ev as [n o | epoch m save]; simpl.
      - eexists; split; [done |]. simpl. apply Qle_refl.
      - apply test_tail_monotone. }
    destruct (IH st1) as (st' & Hrun & Hle').
    exists st'. simpl. rewrite Hev. simpl. split; [done |].
    by eapply Qle_trans.
Qed.

Section LoopFacts.
Context `{!Torch}.

Lemma train_best_acc (a : Args.t) (epoch : Z) (st : session) :
  best_acc (train a epoch st) = best_acc st ∧
  disk (train a epoch st) = disk st.
Proof.
  unfold train. by destruct (train_pass _ _ _ _) as [[n o] m].
Qed.

Lemma epoch_loop_cons (a : Args.t) (log_dir : string) (epoch : Z)
    (epochs : list Z) (st : session) (lr : R) (o : optim) :
  adjust_learning_rate a (optimizer st) epoch = Ok (lr, o) →
  epoch_loop a log_dir (epoch :: epochs) st
  = test a (Some log_dir) epoch true
      (train a epoch
         {| net := net st; optimizer := o; best_acc := best_acc st;
            disk := disk st; writer := writer st |})
    ≫= epoch_loop a log_dir epochs.
Proof. intros Hadj. cbn [epoch_loop]. by rewrite Hadj. Qed.

Lemma epoch_loop_raises (a : Args.t) (log_dir : string) (epoch : Z)
    (epochs : list Z) (st : session) (e : exn) :
  lr_policy a epoch = Err e →
  epoch_loop a log_dir (epoch :: epochs) st = Err e.
Proof.
  intros Hpol. cbn [epoch_loop]. unfold adjust_learning_rate.
  by rewrite Hpol.
Qed.

(** Where the policy is defined for every epoch to run, the loop returns,
    and [best_acc] has not decreased. *)
Lemma epoch_loop_monotone (a : Args.t) (log_dir : string) (epochs : list Z)
    (st : session) :
  (∀ epoch, epoch ∈ epochs → ∃ lr, lr_policy a epoch = Ok lr) →
  ∃ st', epoch_loop a log_dir epochs st = Ok st' ∧
         (best_acc st <= best_acc st')%Q.
Proof.
  revert st. induction epochs as [|epoch epochs IH]; intros st Hlr.
  - exists st. split; [done | apply Qle_refl].
  - destruct (Hlr epoch) as [lr Hpol]; [set_solver |].
    destruct (adjust_learning_rate_writes a (optimizer st) epoch lr Hpol)
      as (o & Hadj & _).
    rewrite (epoch_loop_cons _ _ _ _ _ _ _ Hadj).
    set (st1 := train a epoch _).
    destruct (test_tail_monotone a log_dir (eval_pass (net st1)) epoch true
                st1) as (st2 & Htest & Hle).
    unfold test. rewrite Htest.
    destruct (IH st2) as (st' & Hloop & Hle'); [set_solver |].
    exists st'. split; [exact Hloop |].
    eapply Qle_trans; [| exact Hle']. eapply Qle_trans; [| exact Hle].
    subst st1. destruct (train_best_acc a epoch
      {| net := net st; optimizer := o; best_acc := best_acc st;
         disk := disk st; writer := writer st |}) as [-> _].
    simpl. apply Qle_refl.
Qed.
End LoopFacts.

(** ** Best accuracy and the checkpoint record *)

Lemma checkpoint_state_dict (a : Args.t) (epoch : Z) (n : network)
    (o : optim) (m : metrics) :
  ∃ d, checkpoint_state a epoch n o m = VDict d ∧
       dom d = ({["epoch"; "model"; "dataset"; "state_dict"; "acc";
                  "optimizer"]} : gset string) ∧
       d !! "epoch" = Some (VInt epoch) ∧
       d !! "model" = Some (VStr (Args.model a)) ∧
       d !! "dataset" = Some (VStr (Args.dataset a)) ∧
       d !! "state_dict" = Some (net_state_dict n) ∧
       d !! "acc" = Some (VFloat (top1_avg m)) ∧
       d !! "optimizer" = Some (VOptim o).
Proof.
  eexists. split; [reflexivity |].
  split; [rewrite !dom_insert_L, dom_empty_L; set_solver |].
  repeat split; by simplify_map_eq.
Qed.

(** C2, as stated, fails: after an epoch with 50% top-1 accuracy and a later
    one with 30%, the record written last has [acc] = 30 while the best
    accuracy so far is 50. *)
Lemma checkpoint_acc_is_current_epoch :
  let a := args_with_lr 0.1 "exp" 150 in
  let evs := [Validated 0 (sample_metrics 50) true;
              Validated 1 (sample_metrics 30) true] in
  ∃ st' d,
    run_events a "./logs/r-run1" evs sample_session = Ok st' ∧
    disk st' !! ckpt_file "./logs/r-run1" = Some (VDict d) ∧
    d !! "acc" = Some (VFloat 30) ∧
    best_acc st' = 50%Q ∧
    VFloat 30 ≠ VFloat 50.
Proof.
  intros a evs. subst evs. cbn [run_events apply_event].
  rewrite test_tail_new_best by done. cbn [mbind result_bind].
  rewrite test_tail_not_best by (simpl; discriminate).
  eexists _, _. split; [reflexivity |]. cbn [disk best_acc].
  split; [apply lookup_insert_eq |].
  split; [by simplify_map_eq |]. split; [done | discriminate].
Qed.

(** C2, amended: every record an evaluation epoch writes has exactly the keys
    epoch, model, dataset, state_dict, acc and optimizer; [acc] is the top-1
    average of the epoch that wrote the record.  It is the best accuracy so
    far when the epoch set a new best (the record is then also the content
    of the best file), and lies below it when the epoch stayed below the
    best. *)
Theorem checkpoint_record_contents (a : Args.t) (log_dir : string)
    (m : metrics) (epoch : Z) (st : session) :
  ∃ st' d,
    test_tail a (Some log_dir) m epoch true st = Ok st' ∧
    disk st' !! ckpt_file log_dir = Some (VDict d) ∧
    dom d = ({["epoch"; "model"; "dataset"; "state_dict"; "acc";
               "optimizer"]} : gset string) ∧
    d !! "epoch" = Some (VInt epoch) ∧
    d !! "model" = Some (VStr (Args.model a)) ∧
    d !! "dataset" = Some (VStr (Args.dataset a)) ∧
    d !! "state_dict" = Some (net_state_dict (net st)) ∧
    d !! "acc" = Some (VFloat (top1_avg m)) ∧
    d !! "optimizer" = Some (VOptim (optimizer st)) ∧
    ((best_acc st < top1_avg m)%Q →
       best_acc st' = top1_avg m ∧
       disk st' !! best_file log_dir = Some (VDict d)) ∧
    ((top1_avg m < best_acc st)%Q →
       best_acc st' = best_acc st ∧ (top1_avg m < best_acc st')%Q).
Proof.
  destruct (checkpoint_state_dict a epoch (net st) (optimizer st) m)
    as (d & Hd & Hdom & He & Hm & Hds & Hsd & Hacc & Ho).
  pose proof (best_file_ne log_dir) as Hne.
  destruct (Qlt_le_dec (best_acc st) (top1_avg m)) as [Hlt | Hle].
  - rewrite test_tail_new_best by done. eexists _, d. split; [done |].
    cbn [disk best_acc]. rewrite <- Hd.
    split; [by rewrite lookup_insert_ne, lookup_insert_eq |].
    repeat (split; [done |]). split.
    + intros _. split; [done | by rewrite lookup_insert_eq].
    + intros Hgt. exfalso. by apply (Qlt_irrefl (top1_avg m)), (Qlt_trans _ _ _ Hgt).
  - rewrite test_tail_not_best by done. eexists _, d. split; [done |].
    cbn [disk best_acc]. rewrite <- Hd.
    split; [by rewrite lookup_insert_eq |].
    repeat (split; [done |]). split.
    + intros Hlt. exfalso. by apply (Qlt_not_le _ _ Hlt).
    + done.
Qed.

Lemma checkpoint_record_contents_witness :
  ∃ st' d,
    test_tail (args_with_lr 0.1 "exp" 150) (Some "./logs/r-run1")
      (sample_metrics 50) 0 true sample_session = Ok st' ∧
    disk st' !! ckpt_file "./logs/r-run1" = Some (VDict d) ∧
    d !! "acc" = Some (VFloat 50) ∧
    best_acc st' = 50%Q ∧
    disk st' !! best_file "./logs/r-run1" = Some (VDict d).
Proof.
  destruct (checkpoint_record_contents (args_with_lr 0.1 "exp" 150)
              "./logs/r-run1" (sample_metrics 50) 0 sample_session)
    as (st' & d & Hok & Hfile & _ & _ & _ & _ & _ & Hacc & _ & Hbest & _).
  exists st', d. destruct Hbest as [Hb Hcopy]; [reflexivity |].
  repeat split; assumption.
Defined.

(** One evaluation epoch with [save] set. *)
Lemma best_acc_tracking_core (a : Args.t) (log_dir : string) (m : metrics)
    (epoch : Z) (st : session) :
  ∃ st',
    test_tail a (Some log_dir) m epoch true st = Ok st' ∧
    disk st' !! ckpt_file log_dir
    = Some (checkpoint_state a epoch (net st) (optimizer st) m) ∧
    ((best_acc st < top1_avg m)%Q →
       disk st' !! best_file log_dir
       = Some (checkpoint_state a epoch (net st) (optimizer st) m)).
Proof.
  pose proof (best_file_ne log_dir) as Hne.
  destruct (Qlt_le_dec (best_acc st) (top1_avg m)) as [Hlt | Hle].
  - rewrite test_tail_new_best by done. eexists. split; [done |].
    cbn [disk].
    split; [by rewrite lookup_insert_ne, lookup_insert_eq |].
    intros _. by rewrite lookup_insert_eq.
  - rewrite test_tail_not_best by done. eexists. split; [done |].
    cbn [disk]. split; [by rewrite lookup_insert_eq |].
    intros Hlt. exfalso. by apply (Qlt_not_le _ _ Hlt).
Qed.

(** C3, as stated, fails: the evaluation of an [--eval] run measures 50%
    top-1 accuracy, strictly more than the best so far, 0, and leaves
    [best_acc] at 0 and the disk untouched, since [test] is called with
    [save=False]. *)
Lemma eval_only_keeps_best_acc :
  let a :=
    {| Args.model := "vgg16_bn"; Args.dataset := "imagenet"; Args.lr := 0.1;
       Args.n_gpu := 1; Args.batch_size := 128; Args.n_worker := 4;
       Args.lr_type := "exp"; Args.n_epoch := 150; Args.wd := 4e-5;
       Args.seed := None; Args.data_root := None; Args.ckpt_path := None;
       Args.eval := true; Args.mixup := false; Args.prune_layer := None |} in
  @setup sample_torch a ∅ = Ok (sample_session, 0) ∧
  (best_acc sample_session < top1_avg (@eval_pass sample_torch (net sample_session)))%Q ∧
  @test sample_torch a None 0 false sample_session = Ok sample_session ∧
  @main sample_torch a ∅ [] = Ok sample_session ∧
  best_acc sample_session = 0%Q.
Proof. repeat split. Qed.

(** C3, amended, for a log directory whose path has no [.pth.tar] in it:
    across every sequence of training passes and evaluation epochs
    [best_acc] never decreases.  An evaluation epoch run with [save] set
    writes its record to [ckpt.pth.tar] and, if and only if its top-1 average
    is strictly greater than the previous best, sets [best_acc] to that
    average and copies the record to [ckpt.best.pth.tar]; otherwise
    [best_acc] and [ckpt.best.pth.tar] stay as they were.  An evaluation run
    with [save] unset changes nothing. *)
Theorem best_acc_tracking (a : Args.t) (log_dir : string) :
  Py.occurs ".pth.tar" log_dir = false →
  (∀ evs st, ∃ st',
     run_events a log_dir evs st = Ok st' ∧ (best_acc st <= best_acc st')%Q) ∧
  (∀ m epoch st, ∃ st',
     test_tail a (Some log_dir) m epoch true st = Ok st' ∧
     disk st' !! Py.os_path_join log_dir "ckpt.pth.tar"
     = Some (checkpoint_state a epoch (net st) (optimizer st) m) ∧
     ((best_acc st < top1_avg m)%Q →
        best_acc st' = top1_avg m ∧
        disk st' !! Py.os_path_join log_dir "ckpt.best.pth.tar"
        = Some (checkpoint_state a epoch (net st) (optimizer st) m)) ∧
     (¬ (best_acc st < top1_avg m)%Q →
        best_acc st' = best_acc st ∧
        disk st' !! Py.os_path_join log_dir "ckpt.best.pth.tar"
        = disk st !! Py.os_path_join log_dir "ckpt.best.pth.tar")) ∧
  (∀ dir m epoch st, test_tail a dir m epoch false st = Ok st).
Proof.
  intros Hplain.
  split; [apply run_events_monotone |]. split; [| done].
  intros m epoch st. pose proof (best_file_ne log_dir) as Hne.
  rewrite <- (best_file_plain log_dir Hplain).
  fold (ckpt_file log_dir).
  destruct (Qlt_le_dec (best_acc st) (top1_avg m)) as [Hlt | Hle].
  - rewrite test_tail_new_best by done. eexists. split; [done |].
    cbn [disk best_acc].
    split; [by rewrite lookup_insert_ne, lookup_insert_eq |].
    split; [intros _; split; [done | by rewrite lookup_insert_eq] |].
    intros Hn. by destruct Hn.
  - rewrite test_tail_not_best by done. eexists. split; [done |].
    cbn [disk best_acc].
    split; [by rewrite lookup_insert_eq |].
    split; [intros Hlt; exfalso; by apply (Qlt_not_le _ _ Hlt) |].
    intros _. split; [done | by rewrite lookup_insert_ne].
Qed.

Lemma best_acc_tracking_witness :
  (∃ st',
     test_tail (args_with_lr 0.1 "exp" 150) (Some "./logs/r-run1")
       (sample_metrics 50) 3 true sample_session = Ok st' ∧
     best_acc st' = 50%Q ∧
     disk st' !! "./logs/r-run1/ckpt.best.pth.tar"
     = Some (checkpoint_state (args_with_lr 0.1 "exp" 150) 3
               (net sample_session) (optimizer sample_session)
               (sample_metrics 50))) ∧
  (∃ st',
     test_tail (args_with_lr 0.1 "exp" 150) (Some "./logs/r-run1")
       (sample_metrics 0) 3 true sample_session = Ok st' ∧
     best_acc st' = 0%Q ∧
     disk st' !! "./logs/r-run1/ckpt.best.pth.tar" = None).
Proof.
  destruct (best_acc_tracking (args_with_lr 0.1 "exp" 150) "./logs/r-run1"
              eq_refl) as (_ & Hone & _).
  split.
  - destruct (Hone (sample_metrics 50) 3 sample_session)
      as (st' & Hok & _ & Hbest & _).
    exists st'. destruct Hbest as [Hb Hcopy]; [reflexivity |].
    split; [exact Hok |]. split; [exact Hb | exact Hcopy].
  - destruct (Hone (sample_metrics 0) 3 sample_session)
      as (st' & Hok & _ & _ & Hkeep).
    exists st'. destruct Hkeep as [Hb Hcopy]; [by intros [=] |].
    split; [exact Hok |]. split; [exact Hb |].
    refine (eq_trans Hcopy _). apply lookup_empty.
Defined.

(** ** Resuming from a checkpoint *)

Lemma tensors_of_state_dict (w : state_dict) :
  forallb is_tensor (map_to_list (VTensor <$> w)).*2 = true ∧
  omap tensor_of (VTensor <$> w) = w.
Proof.
  split.
  - apply forallb_forall. intros v Hv.
    apply list_elem_of_In, list_elem_of_fmap in Hv as ([k v'] & -> & Hkv).
    apply elem_of_map_to_list in Hkv. rewrite lookup_fmap in Hkv.
    simpl. by destruct (w !! k); simplify_eq/=.
  - apply map_eq. intros k. rewrite lookup_omap, lookup_fmap.
    by destruct (w !! k).
Qed.

(** Loading the state dict of a module into a module of the same keys and
    shapes succeeds and installs exactly these weights. *)
Lemma load_state_dict_value (m0 m : module) :
  length <$> weights m0 = length <$> weights m →
  load_state_dict m0 (state_dict_value m) = Ok (Build_module (weights m)).
Proof.
  intros Hshape. unfold load_state_dict, state_dict_value.
  destruct (tensors_of_state_dict (weights m)) as [-> ->].
  by rewrite decide_True.
Qed.

Lemma net_state_dict_module (n : network) :
  net_state_dict n = state_dict_value (module_of n).
Proof. by destruct n. Qed.

Section ResumeFacts.
Context `{!Torch}.

Lemma resume_dict (p : string) (disk : files) (d : gmap string value)
    (m0 : module) :
  disk !! p = Some (VDict d) →
  resume p disk m0
  = load_state_dict m0 (default (VDict d) (d !! "state_dict")).
Proof.
  intros Hp. unfold resume, torch_load. rewrite Hp. simpl.
  by destruct (d !! "state_dict").
Qed.

Lemma setup_resumed (a : Args.t) (p : string) (disk : files)
    (m0 m1 : module) :
  Args.ckpt_path a = Some p → get_model a = Ok m0 →
  resume p disk m0 = Ok m1 →
  setup a disk
  = Ok ({| net := if use_cuda && (Args.n_gpu a >? 1)
                  then DataParallel m1 (seqZ 0 (Args.n_gpu a))
                  else Plain m1;
           optimizer := SGD m1 (Args.lr a) 0.9 (Args.wd a);
           best_acc := 0; disk := disk; writer := [] |}, 0).
Proof.
  intros Hp Hm Hr. unfold setup. rewrite Hm, Hp. simpl. by rewrite Hr.
Qed.

Lemma setup_unsupported_model (a : Args.t) (disk : files) :
  get_model a = Err NotImplementedError →
  setup a disk = Err NotImplementedError.
Proof. intros Hm. unfold setup. by rewrite Hm. Qed.

Lemma get_model_unsupported (a : Args.t) :
  Args.model a ≠ "vgg16_bn" → Args.model a ≠ "vgg16_bn_x" →
  get_model a = Err NotImplementedError.
Proof.
  intros H1 H2. unfold get_model.
  apply String.eqb_neq in H1, H2. by rewrite H1, H2.
Qed.

(** Saving in an evaluation epoch and resuming from the file written: the
    weights come back, the best accuracy starts again at 0. *)
Lemma resume_after_save (a a' : Args.t) (log_dir p : string) (m : metrics)
    (epoch : Z) (st : session) (m0 : module) :
  get_model a' = Ok m0 →
  length <$> weights m0 = length <$> weights (module_of (net st)) →
  Args.ckpt_path a' = Some p →
  p = ckpt_file log_dir ∨
  (p = best_file log_dir ∧ (best_acc st < top1_avg m)%Q) →
  ∃ st' rs,
    test_tail a (Some log_dir) m epoch true st = Ok st' ∧
    disk st' !! p
    = Some (checkpoint_state a epoch (net st) (optimizer st) m) ∧
    setup a' (disk st') = Ok (rs, 0) ∧
    weights (module_of (net rs)) = weights (module_of (net st)) ∧
    best_acc rs = 0%Q.
Proof.
  intros Hm0 Hshape Hp Hwhich.
  destruct (best_acc_tracking_core a log_dir m epoch st)
    as (st' & Hok & Hfile & Hbest).
  assert (disk st' !! p
          = Some (checkpoint_state a epoch (net st) (optimizer st) m))
    as Hdisk.
  { destruct Hwhich as [-> | [-> Hlt]]; [done | by apply Hbest]. }
  destruct (checkpoint_state_dict a epoch (net st) (optimizer st) m)
    as (d & Hd & _ & _ & _ & _ & Hsd & _).
  assert (resume p (disk st') m0
          = Ok (Build_module (weights (module_of (net st))))) as Hres.
  { rewrite (resume_dict p _ d) by (by rewrite Hdisk, Hd).
    rewrite Hsd. simpl. rewrite net_state_dict_module.
    by apply load_state_dict_value. }
  exists st'. eexists. split; [done |]. split; [done |].
  split; [by apply (setup_resumed a' p _ m0) |].
  simpl. split; [| done]. by destruct (use_cuda && _).
Qed.
End ResumeFacts.

(** C1, as stated, fails: an evaluation epoch with 50% top-1 accuracy records
    [acc] = 50 (and [best_acc] is 50 in the saving process); the process
    resumed from the file it wrote has [best_acc] = 0. *)
Lemma resumed_best_acc_is_zero :
  let a := args_with_lr 0.1 "exp" 150 in
  let log_dir := "./logs/r-run1" in
  ∃ st' d rs,
    test_tail a (Some log_dir) (sample_metrics 50) 0 true sample_session
    = Ok st' ∧
    best_acc st' = 50%Q ∧
    disk st' !! ckpt_file log_dir = Some (VDict d) ∧
    d !! "acc" = Some (VFloat 50) ∧
    @setup sample_torch (args_resumed (ckpt_file log_dir)) (disk st')
    = Ok (rs, 0) ∧
    best_acc rs = 0%Q ∧
    best_acc rs ≠ 50%Q.
Proof.
  intros a log_dir.
  destruct (@resume_after_save sample_torch a
              (args_resumed (ckpt_file log_dir)) log_dir (ckpt_file log_dir)
              (sample_metrics 50) 0 sample_session sample_module)
    as (st' & rs & Hok & Hfile & Hsetup & _ & Hbest); [done.. | by left |].
  destruct (checkpoint_state_dict a 0 (net sample_session)
              (optimizer sample_session) (sample_metrics 50))
    as (d & Hd & _ & _ & _ & _ & _ & Hacc & _).
  assert (best_acc st' = 50%Q) as Hb.
  { rewrite test_tail_new_best in Hok by done. by injection Hok as <-. }
  exists st', d, rs. rewrite Hd in Hfile.
  split; [exact Hok |]. split; [exact Hb |]. split; [exact Hfile |].
  split; [exact Hacc |]. split; [exact Hsetup |]. split; [exact Hbest |].
  rewrite Hbest. by intros [=].
Qed.

Section DriverClaims.
Context `{!Torch}.

(** C1, amended: saving the training state in an evaluation epoch and
    resuming from the checkpoint file written (or from the best file, when
    the epoch set a new best), with a model of the same keys and shapes,
    reproduces identical model weights; the best accuracy of the resumed
    process is 0, whatever accuracy the record holds. *)
Theorem checkpoint_round_trip (a a' : Args.t) (log_dir p : string)
    (m : metrics) (epoch : Z) (st : session) (m0 : module) :
  get_model a' = Ok m0 →
  length <$> weights m0 = length <$> weights (module_of (net st)) →
  Args.ckpt_path a' = Some p →
  p = ckpt_file log_dir ∨
  (p = best_file log_dir ∧ (best_acc st < top1_avg m)%Q) →
  ∃ st' rs,
    test_tail a (Some log_dir) m epoch true st = Ok st' ∧
    disk st' !! p
    = Some (checkpoint_state a epoch (net st) (optimizer st) m) ∧
    setup a' (disk st') = Ok (rs, 0) ∧
    weights (module_of (net rs)) = weights (module_of (net st)) ∧
    best_acc rs = 0%Q.
Proof. apply resume_after_save. Qed.

(** C10: a resume loads the weights only: the tensors of the [state_dict]
    entry of the loaded dictionary or, without such an entry, of the
    dictionary itself, become the weights of the network (a model of the same
    keys and sizes).  The session starts at epoch 0 with [best_acc] 0 and a
    new SGD optimizer built from the arguments, whatever epoch, accuracy and
    optimizer state the file holds: any file with the same [state_dict] entry
    gives the same network, optimizer, best accuracy and start epoch, and the
    epoch loop of the driver runs over [0 .. n_epoch - 1]. *)
Theorem resume_loads_weights_only (a : Args.t) (p : string) (disk : files)
    (d : gmap string value) (w : state_dict) (m0 : module) :
  Args.ckpt_path a = Some p →
  get_model a = Ok m0 →
  disk !! p = Some (VDict d) →
  d !! "state_dict" = Some (VDict (VTensor <$> w)) ∨
  (d = VTensor <$> w ∧ w !! "state_dict" = None) →
  length <$> weights m0 = length <$> w →
  ∃ st,
    setup a disk = Ok (st, 0) ∧
    weights (module_of (net st)) = w ∧
    best_acc st = 0%Q ∧
    optimizer st = SGD (Build_module w) (Args.lr a) 0.9 (Args.wd a) ∧
    opt_state (optimizer st) = ∅ ∧
    (∀ disk' d',
       disk' !! p = Some (VDict d') →
       d' !! "state_dict" = Some (VDict (VTensor <$> w)) →
       ∃ st', setup a disk' = Ok (st', 0) ∧ net st' = net st ∧
              optimizer st' = optimizer st ∧ best_acc st' = best_acc st) ∧
    (Args.eval a = false →
       ∀ logs,
         main a disk logs
         = epoch_loop a
             (get_output_folder "./logs"
                (Args.model a +:+ "_" +:+ Args.dataset a +:+ "_finetune")
                logs)
             (seqZ 0 (Args.n_epoch a)) st) ∧
    (0 < Args.n_epoch a →
       seqZ 0 (Args.n_epoch a) = 0 :: seqZ 1 (Args.n_epoch a - 1)).
Proof.
  intros Hp Hm Hfile Hwhich Hshape.
  assert (load_state_dict m0 (VDict (VTensor <$> w)) = Ok (Build_module w))
    as Hload by (by apply (load_state_dict_value m0 (Build_module w))).
  assert (resume p disk m0 = Ok (Build_module w)) as Hres.
  { rewrite (resume_dict p disk d) by done.
    destruct Hwhich as [-> | [-> Hkey]]; [done |].
    by rewrite lookup_fmap, Hkey. }
  eexists. split; [by apply (setup_resumed a p disk m0 (Build_module w)) |].
  cbn [net optimizer best_acc].
  split; [by destruct (use_cuda && _) |].
  split; [done |]. split; [done |]. split; [done |].
  split; [| split].
  - intros disk' d' Hfile' Hsd.
    assert (resume p disk' m0 = Ok (Build_module w)) as Hres'.
    { rewrite (resume_dict p disk' d') by done. by rewrite Hsd. }
    eexists.
    split; [by apply (setup_resumed a p disk' m0 (Build_module w)) |]. done.
  - intros Heval logs. unfold main.
    rewrite (setup_resumed a p disk m0 (Build_module w)) by done. cbn.
    by rewrite Heval.
  - intros Hn. rewrite seqZ_cons by done.
    by replace (Z.succ 0) with 1 by lia.
Qed.

(** C6: for a model name other than [vgg16_bn] and [vgg16_bn_x], such as
    the default [mobilenet], [get_model] raises [NotImplementedError]; for a
    policy other than [cos], [exp] and [fixed], such as [step3],
    [adjust_learning_rate] raises [NotImplementedError].  Nothing catches
    either: the driver ends with that exception. *)
Theorem unsupported_configuration_raises :
  (∀ a,
     Args.model a ≠ "vgg16_bn" → Args.model a ≠ "vgg16_bn_x" →
     get_model a = Err NotImplementedError ∧
     ∀ disk logs, main a disk logs = Err NotImplementedError) ∧
  get_model Args.default = Err NotImplementedError ∧
  (∀ a o epoch,
     Args.lr_type a ≠ "cos" → Args.lr_type a ≠ "exp" →
     Args.lr_type a ≠ "fixed" →
     adjust_learning_rate a o epoch = Err NotImplementedError) ∧
  (∀ o epoch, adjust_learning_rate args_step3 o epoch
              = Err NotImplementedError) ∧
  (∀ a disk logs st start_epoch,
     Args.lr_type a ≠ "cos" → Args.lr_type a ≠ "exp" →
     Args.lr_type a ≠ "fixed" →
     setup a disk = Ok (st, start_epoch) →
     Args.eval a = false → 0 < Args.n_epoch a →
     main a disk logs = Err NotImplementedError).
Proof.
  assert (∀ a o epoch,
            Args.lr_type a ≠ "cos" → Args.lr_type a ≠ "exp" →
            Args.lr_type a ≠ "fixed" →
            adjust_learning_rate a o epoch = Err NotImplementedError)
    as Hadj.
  { intros a o epoch H1 H2 H3. unfold adjust_learning_rate.
    by rewrite lr_policy_unsupported. }
  split; [| split; [| split; [| split]]].
  - intros a H1 H2. split; [by apply get_model_unsupported |].
    intros disk logs. unfold main.
    by rewrite setup_unsupported_model by (by apply get_model_unsupported).
  - by apply get_model_unsupported.
  - exact Hadj.
  - intros o epoch. by apply Hadj.
  - intros a disk logs st start_epoch H1 H2 H3 Hsetup Heval Hn.
    unfold main. rewrite Hsetup. cbn. rewrite Heval.
    rewrite seqZ_cons by done.
    apply epoch_loop_raises. by apply lr_policy_unsupported.
Qed.
End DriverClaims.

Lemma checkpoint_round_trip_witness :
  ∃ st' rs,
    test_tail (args_with_lr 0.1 "exp" 150) (Some "./logs/r-run1")
      (sample_metrics 50) 0 true sample_session = Ok st' ∧
    disk st' !! ckpt_file "./logs/r-run1"
    = Some (checkpoint_state (args_with_lr 0.1 "exp" 150) 0
              (net sample_session) (optimizer sample_session)
              (sample_metrics 50)) ∧
    @setup sample_torch (args_resumed (ckpt_file "./logs/r-run1")) (disk st')
    = Ok (rs, 0) ∧
    weights (module_of (net rs)) = weights (module_of (net sample_session)) ∧
    best_acc rs = 0%Q.
Proof.
  apply (@checkpoint_round_trip sample_torch (args_with_lr 0.1 "exp" 150)
           (args_resumed (ckpt_file "./logs/r-run1")) "./logs/r-run1"
           (ckpt_file "./logs/r-run1") (sample_metrics 50) 0 sample_session
           sample_module).
  - reflexivity.
  - reflexivity.
  - reflexivity.
  - left. reflexivity.
Defined.

Lemma trained_weights_shape :
  length <$> weights sample_module = length <$> trained_weights.
Proof.
  unfold sample_module, trained_weights. cbn [weights].
  by rewrite !fmap_insert, !map_fmap_singleton.
Qed.

Lemma resume_loads_weights_only_witness :
  ∃ st,
    @setup sample_torch (args_resumed "ck.pth.tar")
      {[ "ck.pth.tar" := VDict trained_checkpoint ]} = Ok (st, 0) ∧
    weights (module_of (net st)) = trained_weights ∧
    best_acc st = 0%Q ∧
    optimizer st = SGD (Build_module trained_weights) 0.1 0.9 4e-5 ∧
    seqZ 0 150 = 0 :: seqZ 1 (150 - 1).
Proof.
  destruct (@resume_loads_weights_only sample_torch
              (args_resumed "ck.pth.tar") "ck.pth.tar"
              {[ "ck.pth.tar" := VDict trained_checkpoint ]}
              trained_checkpoint trained_weights sample_module)
    as (st & Hsetup & Hnet & Hbest & Hopt & _ & _ & _ & Hseq).
  - reflexivity.
  - reflexivity.
  - apply lookup_singleton_eq.
  - left. unfold trained_checkpoint. rewrite lookup_insert_ne by done.
    apply lookup_insert_eq.
  - apply trained_weights_shape.
  - exists st. split; [exact Hsetup |]. split; [exact Hnet |].
    split; [exact Hbest |]. split; [exact Hopt |]. apply Hseq; reflexivity.
Defined.

Lemma unsupported_configuration_raises_witness :
  @get_model sample_torch Args.default = Err NotImplementedError ∧
  @main sample_torch Args.default ∅ [] = Err NotImplementedError ∧
  adjust_learning_rate args_step3 (SGD sample_module 0.1 0.9 4e-5) 0
  = Err NotImplementedError ∧
  @main sample_torch args_step3 ∅ [] = Err NotImplementedError.
Proof.
  destruct (@unsupported_configuration_raises sample_torch)
    as (Hmodel & _ & Hadj & _ & Hmain).
  destruct (Hmodel Args.default) as [Hget Hrun]; [discriminate.. |].
  split; [exact Hget |]. split; [apply Hrun |].
  split; [apply Hadj; discriminate |].
  apply (Hmain args_step3 ∅ [] sample_session 0); try discriminate.
  - reflexivity.
  - reflexivity.
  - reflexivity.
Defined.

(** * Further properties *)

(** ** Decimal numerals: [int(str(n))] *)

Lemma uint_val_pos (d : Decimal.uint) (acc : positive) :
  uint_val (Z.pos acc) d = Z.pos (Pos.of_uint_acc d acc).
Proof.
  revert acc. induction d; intros acc; simpl; [done | ..];
    rewrite <- IHd; f_equal; lia.
Qed.

Lemma uint_val_zero (d : Decimal.uint) :
  uint_val 0 d = Z.of_N (Pos.of_uint d).
Proof.
  induction d; simpl; [done | done | ..]; by rewrite <- uint_val_pos.
Qed.

Lemma scan_digits_numeral (d : Decimal.uint) (acc : Z) :
  Py.scan_digits acc Py.PDigit (NilEmpty.string_of_uint d)
  = Some (uint_val acc d, EmptyString).
Proof. revert acc. induction d; intros acc; simpl; by rewrite ?IHd. Qed.

Lemma int_numeral (d : Decimal.uint) :
  d ≠ Decimal.Nil →
  Py.int (NilEmpty.string_of_uint d) = Ok (uint_val 0 d) ∧
  Py.int (String "-" (NilEmpty.string_of_uint d)) = Ok (- uint_val 0 d).
Proof.
  intros Hd. destruct d; [done | ..];
    (split; unfold Py.int; simpl; by rewrite scan_digits_numeral).
Qed.

Lemma string_of_uint_nonnil (d : Decimal.uint) :
  d ≠ Decimal.Nil → NilZero.string_of_uint d = NilEmpty.string_of_uint d.
Proof. by destruct d. Qed.

(** Reading back a printed integer gives the integer. *)
Lemma int_str_of_int (n : Z) : Py.int (Py.str_of_int n) = Ok n.
Proof.
  unfold Py.str_of_int. destruct n as [|p|p]; [done | ..]; simpl;
    pose proof (DecimalPos.Unsigned.to_uint_nonnil p) as Hnil;
    rewrite string_of_uint_nonnil by done.
  - destruct (int_numeral (Pos.to_uint p) Hnil) as [-> _].
    by rewrite uint_val_zero, DecimalPos.Unsigned.of_to.
  - destruct (int_numeral (Pos.to_uint p) Hnil) as [_ ->].
    by rewrite uint_val_zero, DecimalPos.Unsigned.of_to.
Qed.

Lemma numeral_has_no_r (d : Decimal.uint) :
  Py.has_char "r" (NilEmpty.string_of_uint d) = false.
Proof. induction d; simpl; done. Qed.

Lemma str_of_int_has_no_r (n : Z) : Py.has_char "r" (Py.str_of_int n) = false.
Proof.
  unfold Py.str_of_int. destruct n as [|p|p]; [done | ..]; simpl;
    rewrite string_of_uint_nonnil
      by apply DecimalPos.Unsigned.to_uint_nonnil;
    simpl; apply numeral_has_no_r.
Qed.

Lemma is_prefix_cons (a b : ascii) (p s : string) :
  Py.is_prefix (String a p) (String b s) = Ascii.eqb a b && Py.is_prefix p s.
Proof. reflexivity. Qed.

Lemma has_char_cons (c a : ascii) (s : string) :
  Py.has_char c (String a s) = Ascii.eqb a c || Py.has_char c s.
Proof. reflexivity. Qed.

Lemma occurs_run_needs_r (s : string) :
  Py.has_char "r" s = false → Py.occurs "-run" s = false.
Proof.
  induction s as [|c s IH]; intros Hr; [done |].
  rewrite has_char_cons in Hr. apply orb_false_elim in Hr as [Hc Hr].
  change (Py.is_prefix "-run" (String c s) || Py.occurs "-run" s = false).
  rewrite (IH Hr), orb_false_r, is_prefix_cons.
  destruct s as [|c' s]; [apply andb_false_r |].
  rewrite has_char_cons in Hr. apply orb_false_elim in Hr as [Hc' _].
  rewrite is_prefix_cons, (Ascii.eqb_sym "r" c'), Hc'. apply andb_false_r.
Qed.

(** The run number of [<name>-run<k>] is [k], whatever [name] is. *)
Lemma run_number_of_allocated (env_name : string) (k : Z) :
  run_number (env_name +:+ "-run" +:+ Py.str_of_int k) = Ok k.
Proof.
  rewrite run_number_after_last_sep
    by apply occurs_run_needs_r, str_of_int_has_no_r.
  apply int_str_of_int.
Qed.

(** ** The run-folder allocator, further *)

Lemma highest_run_permutation (l1 l2 : list dir_entry) :
  l1 ≡ₚ l2 → highest_run l1 = highest_run l2.
Proof.
  induction 1 as [| e l l' _ IH | e e' l | l l' l'' _ IH _ IH'].
  - done.
  - rewrite !highest_run_cons, IH. done.
  - rewrite !highest_run_cons.
    destruct (entry_run e), (entry_run e'); lia.
  - by rewrite IH.
Qed.

(** X1: the folder allocated does not depend on the order in which
    [os.listdir] lists the parent. *)
Theorem get_output_folder_listing_order (parent_dir env_name : string)
    (l1 l2 : list dir_entry) :
  l1 ≡ₚ l2 →
  get_output_folder parent_dir env_name l1
  = get_output_folder parent_dir env_name l2.
Proof.
  intros Hp. rewrite !get_output_folder_highest_run.
  by rewrite (highest_run_permutation _ _ Hp).
Qed.

Lemma get_output_folder_listing_order_witness :
  get_output_folder "./logs" "name" [("name-run1", true); ("name-run3", true)]
  = get_output_folder "./logs" "name"
      [("name-run3", true); ("name-run1", true)].
Proof. apply get_output_folder_listing_order. apply perm_swap. Defined.

(** X2: an entry that is not a directory, or whose name carries no run number
    or one that is not positive, has no effect on the folder allocated. *)
Theorem get_output_folder_ignores_entry (parent_dir env_name : string)
    (l1 l2 : list dir_entry) (folder_name : string) (is_dir : bool) :
  is_dir = false ∨ (∀ n, run_number folder_name = Ok n → n ≤ 0) →
  get_output_folder parent_dir env_name (l1 ++ (folder_name, is_dir) :: l2)
  = get_output_folder parent_dir env_name (l1 ++ l2).
Proof.
  intros Hskip. rewrite !get_output_folder_highest_run.
  rewrite !highest_run_app, highest_run_cons.
  pose proof (highest_run_nonneg l2).
  destruct Hskip as [-> | Hn]; [done |].
  destruct is_dir; [| done]. simpl.
  destruct (run_number folder_name) as [n|]; [| done].
  specialize (Hn n eq_refl). by rewrite (Z.max_r n) by lia.
Qed.

Lemma get_output_folder_ignores_entry_witness :
  get_output_folder "./logs" "name"
    ([("name-run1", true)] ++ ("name-run99", false) :: [])
  = get_output_folder "./logs" "name" ([("name-run1", true)] ++ []) ∧
  get_output_folder "./logs" "name"
    ([("name-run1", true)] ++ ("name-run-5", true) :: [])
  = get_output_folder "./logs" "name" ([("name-run1", true)] ++ []).
Proof.
  split.
  - apply get_output_folder_ignores_entry. by left.
  - apply get_output_folder_ignores_entry. right.
    intros n Hn. vm_compute in Hn. injection Hn as <-. lia.
Defined.

(** X3: the folder allocated is [os.path.join(parent, name)-run<k>] for a
    [k >= 1] that exceeds the run number of every directory listed; no
    directory listed is named [<name>-run<k>]. *)
Theorem get_output_folder_fresh (parent_dir env_name : string)
    (listing : list dir_entry) :
  ∃ k,
    get_output_folder parent_dir env_name listing
    = Py.os_path_join parent_dir env_name +:+ "-run" +:+ Py.str_of_int k ∧
    1 ≤ k ∧
    (∀ folder_name n,
       (folder_name, true) ∈ listing → run_number folder_name = Ok n →
       n < k) ∧
    (env_name +:+ "-run" +:+ Py.str_of_int k, true) ∉ listing.
Proof.
  exists (highest_run listing + 1).
  pose proof (highest_run_nonneg listing).
  split; [apply get_output_folder_highest_run |]. split; [lia |].
  assert (∀ folder_name n,
            (folder_name, true) ∈ listing → run_number folder_name = Ok n →
            n < highest_run listing + 1) as Hlt.
  { intros folder_name n Hin Hn.
    pose proof (highest_run_bounds _ _ _ Hin Hn). lia. }
  split; [exact Hlt |].
  intros Hin. specialize (Hlt _ _ Hin (run_number_of_allocated _ _)). lia.
Qed.

Lemma get_output_folder_fresh_witness :
  ∃ k,
    get_output_folder "./logs" "name"
      [("name-run1", true); ("name-run3", true)]
    = Py.os_path_join "./logs" "name" +:+ "-run" +:+ Py.str_of_int k ∧
    1 ≤ k ∧ 3 < k.
Proof.
  destruct (get_output_folder_fresh "./logs" "name"
              [("name-run1", true); ("name-run3", true)])
    as (k & Hk & Hpos & Hgt & _).
  exists k. split; [exact Hk |]. split; [exact Hpos |].
  apply (Hgt "name-run3"); [| reflexivity].
  apply elem_of_cons; right. apply elem_of_cons; by left.
Defined.

(** X4: once the folder allocated is in the parent, the next call allocates
    the next run number. *)
Theorem get_output_folder_successive (parent_dir env_name : string)
    (listing : list dir_entry) :
  let k := highest_run listing + 1 in
  get_output_folder parent_dir env_name listing
  = Py.os_path_join parent_dir env_name +:+ "-run" +:+ Py.str_of_int k ∧
  get_output_folder parent_dir env_name
    (listing ++ [(env_name +:+ "-run" +:+ Py.str_of_int k, true)])
  = Py.os_path_join parent_dir env_name +:+ "-run" +:+ Py.str_of_int (k + 1).
Proof.
  intros k. split; [apply get_output_folder_highest_run |].
  rewrite get_output_folder_highest_run, highest_run_app, highest_run_cons.
  simpl. rewrite run_number_of_allocated.
  pose proof (highest_run_nonneg listing).
  do 3 f_equal. unfold highest_run at 2. simpl. lia.
Qed.

(** ** The learning-rate scheduler, further *)

Section SchedulerMore.
Local Open Scope R_scope.

(** X5: [adjust_learning_rate] returns exactly under [exp], under [fixed]
    and under [cos] with [n_epoch] other than 0; under [cos] with
    [n_epoch = 0] it raises [ZeroDivisionError]. *)
Theorem adjust_learning_rate_returns_iff (a : Args.t) (o : optim) (epoch : Z) :
  ((∃ lr o', adjust_learning_rate a o epoch = Ok (lr, o')) ↔
   (Args.lr_type a = "cos" ∧ Args.n_epoch a ≠ 0%Z) ∨
   Args.lr_type a = "exp" ∨ Args.lr_type a = "fixed") ∧
  (Args.lr_type a = "cos" → Args.n_epoch a = 0%Z →
   adjust_learning_rate a o epoch = Err ZeroDivisionError).
Proof.
  assert (Args.lr_type a = "cos" → Args.n_epoch a = 0%Z →
          adjust_learning_rate a o epoch = Err ZeroDivisionError) as Hzero.
  { intros Ht Hn. unfold adjust_learning_rate, lr_policy.
    by rewrite Ht, Hn. }
  split; [| exact Hzero]. split.
  - intros (lr & o' & Hok).
    destruct (String.eqb_spec (Args.lr_type a) "cos") as [Hc | Hc].
    { left. split; [done |]. intros Hn. by rewrite Hzero in Hok. }
    destruct (String.eqb_spec (Args.lr_type a) "exp") as [He | He];
      [by right; left |].
    destruct (String.eqb_spec (Args.lr_type a) "fixed") as [Hf | Hf];
      [by right; right |].
    unfold adjust_learning_rate in Hok.
    by rewrite lr_policy_unsupported in Hok.
  - intros [[Ht Hn] | [Ht | Ht]].
    + destruct (adjust_learning_rate_writes a o epoch _
                  (lr_policy_cos a epoch Ht Hn)) as (o' & Hok & _).
      by eexists _, _.
    + destruct (adjust_learning_rate_writes a o epoch _
                  (lr_policy_exp a epoch Ht)) as (o' & Hok & _).
      by eexists _, _.
    + destruct (adjust_learning_rate_writes a o epoch _
                  (lr_policy_fixed a epoch Ht)) as (o' & Hok & _).
      by eexists _, _.
Qed.

Lemma adjust_learning_rate_returns_iff_witness :
  (∃ lr o', adjust_learning_rate (args_with_lr 0.1 "cos" 150)
              (SGD sample_module 0.1 0.9 4e-5) 3 = Ok (lr, o')) ∧
  adjust_learning_rate (args_with_lr 0.1 "cos" 0)
    (SGD sample_module 0.1 0.9 4e-5) 3 = Err ZeroDivisionError.
Proof.
  split.
  - apply (adjust_learning_rate_returns_iff (args_with_lr 0.1 "cos" 150)).
    left. split; [reflexivity | discriminate].
  - apply (adjust_learning_rate_returns_iff (args_with_lr 0.1 "cos" 0));
      reflexivity.
Defined.

Lemma cos_argument_range (epoch n_epoch : Z) :
  (0 ≤ epoch ≤ n_epoch)%Z → (0 < n_epoch)%Z →
  0 <= PI * IZR epoch / IZR n_epoch <= PI.
Proof.
  intros [He0 Hen] Hn.
  assert (0 < IZR n_epoch) as Hn' by (by apply (IZR_lt 0)).
  assert (0 <= IZR epoch) as He0' by (by apply (IZR_le 0)).
  assert (IZR epoch <= IZR n_epoch) as Hen' by (by apply IZR_le).
  pose proof PI_RGT_0 as Hpi.
  set (q := IZR epoch / IZR n_epoch).
  assert (q * IZR n_epoch = IZR epoch) as Hq by (unfold q; field; lra).
  assert (0 <= q <= 1) as [Hq0 Hq1] by (split; nra).
  replace (PI * IZR epoch / IZR n_epoch) with (PI * q)
    by (unfold q; field; lra).
  split; nra.
Qed.

(** X6: under [cos] with [n_epoch > 0] and a base rate [lr0 >= 0], the rate
    lies in [[0, lr0]] at every epoch, and it does not increase from an epoch
    of the schedule to a later one; for [lr0 > 0] it strictly decreases. *)
Theorem cos_schedule_bounded_decreasing (a : Args.t) (o : optim) :
  let lr0 := Args.lr a in
  let lr_at epoch := fst <$> adjust_learning_rate a o epoch in
  Args.lr_type a = "cos" → (0 < Args.n_epoch a)%Z → 0 <= lr0 →
  (∀ epoch, ∃ v, lr_at epoch = Ok v ∧ 0 <= v <= lr0) ∧
  (∀ e e', (0 ≤ e)%Z → (e < e')%Z → (e' ≤ Args.n_epoch a)%Z →
     ∃ v v', lr_at e = Ok v ∧ lr_at e' = Ok v' ∧ v' <= v ∧
             (0 < lr0 → v' < v)).
Proof.
  intros lr0 lr_at Ht Hn Hlr. subst lr_at. cbv beta. split.
  - intros epoch. rewrite adjust_learning_rate_policy.
    rewrite lr_policy_cos by (done || lia). eexists. split; [done |].
    pose proof (COS_bound (PI * IZR epoch / IZR (Args.n_epoch a))).
    subst lr0. split; nra.
  - intros e e' He Hlt He'. rewrite !adjust_learning_rate_policy.
    rewrite !lr_policy_cos by (done || lia). do 2 eexists.
    split; [done |]. split; [done |].
    destruct (cos_argument_range e (Args.n_epoch a)) as [Hx0 Hx1]; [lia.. |].
    destruct (cos_argument_range e' (Args.n_epoch a)) as [Hy0 Hy1]; [lia.. |].
    assert (PI * IZR e / IZR (Args.n_epoch a)
            < PI * IZR e' / IZR (Args.n_epoch a)) as Hxy.
    { assert (0 < IZR (Args.n_epoch a)) by (by apply (IZR_lt 0)).
      assert (IZR e < IZR e') by (by apply IZR_lt).
      pose proof PI_RGT_0. unfold Rdiv.
      apply Rmult_lt_compat_r; [by apply Rinv_0_lt_compat | nra]. }
    pose proof (cos_decreasing_1 _ _ Hx0 Hx1 Hy0 Hy1 Hxy).
    subst lr0. split; [nra |]. intros Hpos. nra.
Qed.

Lemma cos_schedule_bounded_decreasing_witness :
  (∃ v, fst <$> adjust_learning_rate (args_with_lr 0.1 "cos" 150)
                  (SGD sample_module 0.1 0.9 4e-5) 200 = Ok v ∧
        0 <= v <= 0.1) ∧
  (∃ v v', fst <$> adjust_learning_rate (args_with_lr 0.1 "cos" 150)
                     (SGD sample_module 0.1 0.9 4e-5) 3 = Ok v ∧
           fst <$> adjust_learning_rate (args_with_lr 0.1 "cos" 150)
                     (SGD sample_module 0.1 0.9 4e-5) 10 = Ok v' ∧
           v' <= v ∧ (0 < 0.1 → v' < v)).
Proof.
  destruct (cos_schedule_bounded_decreasing (args_with_lr 0.1 "cos" 150)
              (SGD sample_module 0.1 0.9 4e-5)) as [Hb Hd];
    [reflexivity | reflexivity | simpl; lra |].
  split; [apply Hb |]. apply Hd; reflexivity || discriminate.
Defined.


End SchedulerMore.


(** ** Mixup, further *)

Section MixupMore.
Local Open Scope Q_scope.

(** X11: with [alpha <= 0] the loss of the mixed batch is the plain loss:
    [mixup_criterion] on what [mixup_data] returns equals
    [criterion(pred, y)]. *)
Theorem mixup_loss_without_mixing (x : batch) (y : list Z) (alpha : Q)
    (use_cuda : bool) (beta_sample : Q) (randperm : list nat) :
  alpha <= 0 →
  randperm ≡ₚ seq 0 (length x) → length y = length x →
  ∃ mixed_x y_a y_b lam,
    mixup_data x y alpha use_cuda beta_sample randperm
    = Ok (mixed_x, y_a, y_b, lam) ∧
    ∀ (P : Type) (criterion : P → list Z → Q) (pred : P),
      mixup_criterion criterion pred y_a y_b lam == criterion pred y.
Proof.
  intros Halpha Hperm Hy.
  destruct (randperm_in_range _ _ Hperm) as [Hin Hlen].
  destruct (gather_in_range x randperm Hin) as (xp & Hxp & _).
  destruct (gather_in_range y randperm) as (yp & Hyp & _);
    [by rewrite Hy |].
  unfold mixup_data. rewrite Hxp, Hyp. simpl.
  destruct (Qlt_le_dec 0 alpha) as [Hlt | _];
    [exfalso; by apply (Qlt_not_le _ _ Hlt) |].
  do 4 eexists. split; [done |].
  intros P criterion pred. unfold mixup_criterion. ring.
Qed.

Lemma mixup_loss_without_mixing_witness :
  ∃ mixed_x y_a y_b lam,
    mixup_data [[1; 2]; [3; 4]] [7; 8]%Z 0 true (1 # 4) [1; 0]%nat
    = Ok (mixed_x, y_a, y_b, lam) ∧
    ∀ (P : Type) (criterion : P → list Z → Q) (pred : P),
      mixup_criterion criterion pred y_a y_b lam
      == criterion pred [7; 8]%Z.
Proof.
  apply (mixup_loss_without_mixing [[1; 2]; [3; 4]] [7; 8]%Z 0 true (1 # 4)
           [1; 0]%nat).
  - discriminate.
  - apply perm_swap.
  - reflexivity.
Defined.

(** X12: the blended batch has the shape of [x]: as many samples, each of
    the size of the samples of [x]. *)
Theorem mixup_keeps_shape (x : batch) (y : list Z) (alpha : Q)
    (use_cuda : bool) (beta_sample : Q) (randperm : list nat) (d : nat) :
  randperm ≡ₚ seq 0 (length x) → length y = length x →
  Forall (λ row, length row = d) x →
  ∃ mixed_x y_b lam,
    mixup_data x y alpha use_cuda beta_sample randperm
    = Ok (mixed_x, y, y_b, lam) ∧
    length mixed_x = length x ∧
    Forall (λ row, length row = d) mixed_x ∧
    y_b ≡ₚ y.
Proof.
  intros Hperm Hy Hrows.
  destruct (randperm_in_range _ _ Hperm) as [Hin Hlen].
  destruct (gather_in_range x randperm Hin) as (xp & Hxp & Hxplen & Hxpi).
  destruct (gather_in_range y randperm) as (yp & Hyp & Hyplen & Hypi);
    [by rewrite Hy |].
  unfold mixup_data. rewrite Hxp, Hyp. simpl.
  do 3 eexists. split; [done |].
  assert (length (add (scale (if Qlt_le_dec 0 alpha then beta_sample else 1) x)
                    (scale (1 - (if Qlt_le_dec 0 alpha then beta_sample else 1))
                       xp)) = length x) as Hl.
  { unfold add, scale. rewrite length_zip_with, !length_fmap. lia. }
  split; [done |]. split.
  - apply Forall_lookup_2. intros i mrow Hm.
    destruct (lookup_lt_is_Some_2 x i) as [row Hr].
    { rewrite <- Hl. by apply lookup_lt_Some in Hm. }
    destruct (lookup_lt_is_Some_2 randperm i) as [p Hp].
    { rewrite Hlen. by apply lookup_lt_Some in Hr. }
    destruct (lookup_lt_is_Some_2 x p) as [row_p Hrp].
    { by eapply Forall_lookup_1 in Hin. }
    rewrite (mixed_row _ x xp i row row_p) in Hm;
      [| done | by rewrite (Hxpi _ _ Hp)].
    injection Hm as <-. rewrite length_zip_with.
    rewrite (Forall_lookup_1 _ _ _ _ Hrows Hr).
    rewrite (Forall_lookup_1 _ _ _ _ Hrows Hrp). lia.
  - assert (yp = (λ p, default 0%Z (y !! p)) <$> randperm) as ->.
    { apply list_eq. intros i. rewrite list_lookup_fmap.
      destruct (randperm !! i) as [p|] eqn:Hp; simpl.
      - rewrite (Hypi _ _ Hp).
        destruct (lookup_lt_is_Some_2 y p) as [b ->]; [| done].
        rewrite Hy. by eapply Forall_lookup_1 in Hin.
      - apply lookup_ge_None. rewrite Hyplen. by apply lookup_ge_None. }
    rewrite Hperm, <- Hy.
    assert ((λ p, default 0%Z (y !! p)) <$> seq 0 (length y) = y) as ->;
      [| done].
    apply list_eq. intros i. rewrite list_lookup_fmap.
    destruct (y !! i) as [b|] eqn:Hb.
    + rewrite lookup_seq_lt by (by apply lookup_lt_Some in Hb).
      simpl. by rewrite Hb.
    + rewrite lookup_seq_ge; [done |]. by apply lookup_ge_None.
Qed.

Lemma mixup_keeps_shape_witness :
  ∃ mixed_x y_b lam,
    mixup_data [[1; 2]; [3; 4]] [7; 8]%Z (1 # 2) true (1 # 4) [1; 0]%nat
    = Ok (mixed_x, [7; 8]%Z, y_b, lam) ∧
    length mixed_x = 2%nat ∧
    Forall (λ row, length row = 2%nat) mixed_x ∧
    y_b ≡ₚ [7; 8]%Z.
Proof.
  apply (mixup_keeps_shape [[1; 2]; [3; 4]] [7; 8]%Z (1 # 2) true (1 # 4)
           [1; 0]%nat 2).
  - apply perm_swap.
  - reflexivity.
  - repeat constructor.
Defined.
End MixupMore.

(** ** Best accuracy and files over a run *)

Lemma test_tail_saved_cases (a : Args.t) (log_dir : string) (m : metrics)
    (epoch : Z) (st : session) :
  ∃ st',
    test_tail a (Some log_dir) m epoch true st = Ok st' ∧
    net st' = net st ∧ optimizer st' = optimizer st ∧
    writer st' = writer st ++ test_scalars m epoch ∧
    disk st' !! ckpt_file log_dir
    = Some (checkpoint_state a epoch (net st) (optimizer st) m) ∧
    (∀ path, path ≠ ckpt_file log_dir → path ≠ best_file log_dir →
             disk st' !! path = disk st !! path) ∧
    (top1_avg m <= best_acc st')%Q ∧
    ((best_acc st' = top1_avg m ∧
      disk st' !! best_file log_dir
      = Some (checkpoint_state a epoch (net st) (optimizer st) m)) ∨
     (best_acc st' = best_acc st ∧
      disk st' !! best_file log_dir = disk st !! best_file log_dir)).
Proof.
  pose proof (best_file_ne log_dir) as Hne.
  destruct (Qlt_le_dec (best_acc st) (top1_avg m)) as [Hlt | Hle].
  - rewrite test_tail_new_best by done. eexists. split; [done |].
    cbn [net optimizer writer disk best_acc].
    split; [done |]. split; [done |]. split; [done |].
    split; [by rewrite lookup_insert_ne, lookup_insert_eq |].
    split; [intros path H1 H2; by rewrite !lookup_insert_ne |].
    split; [apply Qle_refl |]. left. by rewrite lookup_insert_eq.
  - rewrite test_tail_not_best by done. eexists. split; [done |].
    cbn [net optimizer writer disk best_acc].
    split; [done |]. split; [done |]. split; [done |].
    split; [by rewrite lookup_insert_eq |].
    split; [intros path H1 H2; by rewrite lookup_insert_ne |].
    split; [done |]. right. by rewrite lookup_insert_ne.
Qed.

(** X14: after any sequence of training passes and evaluation epochs,
    [best_acc] is at least the top-1 average of every evaluation epoch that
    was run with [save] set, and it is either the initial value or the
    average of one of these epochs: it is their running maximum. *)
Theorem best_acc_running_max (a : Args.t) (log_dir : string)
    (evs : list event) (st : session) :
  ∃ st',
    run_events a log_dir evs st = Ok st' ∧
    (∀ epoch m, Validated epoch m true ∈ evs →
                (top1_avg m <= best_acc st')%Q) ∧
    (best_acc st' = best_acc st ∨
     ∃ epoch m, Validated epoch m true ∈ evs ∧ best_acc st' = top1_avg m).
Proof.
  revert st. induction evs as [|ev evs IH]; intros st.
  - exists st. split; [done |]. split; [| by left].
    intros epoch m Hin. by apply elem_of_nil in Hin.
  - assert (∃ st1, apply_event a log_dir st ev = Ok st1 ∧
              (∀ epoch m, ev = Validated epoch m true →
                          (top1_avg m <= best_acc st1)%Q) ∧
              (best_acc st1 = best_acc st ∨
               ∃ epoch m, ev = Validated epoch m true ∧
                          best_acc st1 = top1_avg m))
      as (st1 & Hev & Hge & Hwhich).
    { destruct ev as [n o | epoch m [|]]; simpl.
      - eexists. split; [done |]. split; [done | by left].
      - destruct (test_tail_saved_cases a log_dir m epoch st)
          as (st1 & Hok & _ & _ & _ & _ & _ & Hle & Hcase).
        exists st1. split; [done |]. split.
        + by intros ? ? [= <- <-].
        + destruct Hcase as [[Hb _] | [Hb _]]; [right | by left].
          by exists epoch, m.
      - exists st. split; [done |]. split; [done | by left]. }
    destruct (IH st1) as (st' & Hrun & Hall & Hsome).
    destruct (run_events_monotone a log_dir evs st1) as (st'' & Hrun' & Hmono).
    rewrite Hrun in Hrun'. injection Hrun' as <-.
    exists st'. simpl. rewrite Hev. split; [exact Hrun |]. split.
    + intros epoch m Hin. apply elem_of_cons in Hin as [Heq | Hin].
      * eapply Qle_trans; [by eapply Hge | done].
      * by eapply Hall.
    + destruct Hsome as [Hsame | (epoch & m & Hin & Hb)].
      * rewrite Hsame. destruct Hwhich as [Hb | (epoch & m & Heq & Hb)];
          [by left | right].
        exists epoch, m. split; [apply elem_of_cons; by left | done].
      * right. exists epoch, m. split; [apply elem_of_cons; by right | done].
Qed.

Lemma best_acc_running_max_witness :
  ∃ st',
    run_events (args_with_lr 0.1 "exp" 150) "./logs/r-run1"
      [Validated 0 (sample_metrics 50) true;
       Validated 1 (sample_metrics 30) true] sample_session = Ok st' ∧
    (30 <= best_acc st')%Q ∧ (50 <= best_acc st')%Q.
Proof.
  destruct (best_acc_running_max (args_with_lr 0.1 "exp" 150) "./logs/r-run1"
              [Validated 0 (sample_metrics 50) true;
               Validated 1 (sample_metrics 30) true] sample_session)
    as (st' & Hrun & Hall & _).
  exists st'. split; [exact Hrun |]. split.
  - apply (Hall 1 (sample_metrics 30)).
    apply elem_of_cons; right. apply elem_of_cons; by left.
  - apply (Hall 0 (sample_metrics 50)). apply elem_of_cons; by left.
Defined.

(** X15: starting without a best file, after any sequence of training passes
    and evaluation epochs the best file, when there is one, is a record whose
    [acc] is the current [best_acc]. *)
Theorem best_file_records_best_acc (a : Args.t) (log_dir : string)
    (evs : list event) (st : session) :
  disk st !! best_file log_dir = None →
  ∃ st',
    run_events a log_dir evs st = Ok st' ∧
    ∀ v, disk st' !! best_file log_dir = Some v →
         ∃ d, v = VDict d ∧ d !! "acc" = Some (VFloat (best_acc st')).
Proof.
  intros Hnone.
  assert (∀ v, disk st !! best_file log_dir = Some v →
               ∃ d, v = VDict d ∧ d !! "acc" = Some (VFloat (best_acc st)))
    as Hinv by (intros v Hv; by rewrite Hnone in Hv).
  clear Hnone. revert st Hinv.
  induction evs as [|ev evs IH]; intros st Hinv; [by exists st |].
  assert (∃ st1, apply_event a log_dir st ev = Ok st1 ∧
            ∀ v, disk st1 !! best_file log_dir = Some v →
                 ∃ d, v = VDict d ∧ d !! "acc" = Some (VFloat (best_acc st1)))
    as (st1 & Hev & Hinv1).
  { destruct ev as [n o | epoch m [|]]; simpl.
    - eexists. split; [done |]. exact Hinv.
    - destruct (test_tail_saved_cases a log_dir m epoch st)
        as (st1 & Hok & _ & _ & _ & _ & _ & _ & Hcase).
      exists st1. split; [done |]. intros v Hv.
      destruct Hcase as [[Hb Hfile] | [Hb Hfile]].
      + rewrite Hfile in Hv. injection Hv as <-.
        destruct (checkpoint_state_dict a epoch (net st) (optimizer st) m)
          as (d & Hd & _ & _ & _ & _ & _ & Hacc & _).
        exists d. by rewrite Hb.
      + rewrite Hb. apply Hinv. by rewrite <- Hfile.
    - exists st. split; [done | exact Hinv]. }
  destruct (IH st1 Hinv1) as (st' & Hrun & Hinv').
  exists st'. simpl. rewrite Hev. by split.
Qed.

Lemma best_file_records_best_acc_witness :
  ∃ st',
    run_events (args_with_lr 0.1 "exp" 150) "./logs/r-run1"
      [Validated 0 (sample_metrics 50) true;
       Validated 1 (sample_metrics 30) true] sample_session = Ok st' ∧
    ∀ v, disk st' !! best_file "./logs/r-run1" = Some v →
         ∃ d, v = VDict d ∧ d !! "acc" = Some (VFloat (best_acc st')).
Proof.
  apply (best_file_records_best_acc (args_with_lr 0.1 "exp" 150)
           "./logs/r-run1"). apply lookup_empty.
Defined.

(** ** The epoch loop *)

Lemma policy_returns_defined (a : Args.t) (epoch : Z) :
  policy_returns a → ∃ lr, lr_policy a epoch = Ok lr.
Proof.
  intros [[Ht Hn] | [Ht | Ht]]; eexists.
  - by apply lr_policy_cos.
  - by apply lr_policy_exp.
  - by apply lr_policy_fixed.
Qed.

Section LoopMore.
Context `{!Torch}.

Lemma train_net (a : Args.t) (epoch : Z) (st : session) :
  net (train a epoch st) = (train_pass a epoch (net st) (optimizer st)).1.1.
Proof.
  unfold train. by destruct (train_pass _ _ _ _) as [[n o] m].
Qed.

(** X17: after the loop has run its last epoch, the checkpoint file holds the
    record of that epoch with the weights of the final network, so that
    resuming from it into a model of the same keys and shapes gives the
    final weights. *)
Theorem final_checkpoint_holds_final_weights (a : Args.t) (log_dir : string)
    (epochs : list Z) (last_epoch : Z) (st : session) (m0 : module) :
  policy_returns a →
  length <$> weights m0 = length <$> weights (module_of (net st)) →
  (∀ epoch n o, length <$> weights (module_of (train_pass a epoch n o).1.1)
                = length <$> weights (module_of n)) →
  ∃ st',
    epoch_loop a log_dir (epochs ++ [last_epoch]) st = Ok st' ∧
    disk st' !! ckpt_file log_dir
    = Some (checkpoint_state a last_epoch (net st') (optimizer st')
              (eval_pass (net st'))) ∧
    resume (ckpt_file log_dir) (disk st') m0
    = Ok (Build_module (weights (module_of (net st')))).
Proof.
  intros Hpol Hshape Htrain.
  assert (∀ st st',
            epoch_loop a log_dir (epochs ++ [last_epoch]) st = Ok st' →
            length <$> weights (module_of (net st'))
            = length <$> weights (module_of (net st)) ∧
            disk st' !! ckpt_file log_dir
            = Some (checkpoint_state a last_epoch (net st') (optimizer st')
                      (eval_pass (net st')))) as Hloop.
  { clear st Hshape. induction epochs as [|epoch epochs IH]; intros st st' Hrun.
    - change ([] ++ [last_epoch]) with [last_epoch] in Hrun.
      destruct (policy_returns_defined a last_epoch Hpol) as [lr Hlr].
      destruct (adjust_learning_rate_writes a (optimizer st) last_epoch lr Hlr)
        as (o & Hadj & _).
      rewrite (epoch_loop_cons _ _ _ _ _ _ _ Hadj) in Hrun.
      set (st1 := train a last_epoch _) in Hrun.
      destruct (test_tail_saved_cases a log_dir (eval_pass (net st1))
                  last_epoch st1)
        as (st2 & Hok & Hnet & Hopt & _ & Hfile & _).
      unfold test in Hrun. rewrite Hok in Hrun. injection Hrun as <-.
      rewrite Hnet, Hopt. split; [| done].
      subst st1. rewrite train_net. apply Htrain.
    - change ((epoch :: epochs) ++ [last_epoch])
        with (epoch :: (epochs ++ [last_epoch])) in Hrun.
      destruct (policy_returns_defined a epoch Hpol) as [lr Hlr].
      destruct (adjust_learning_rate_writes a (optimizer st) epoch lr Hlr)
        as (o & Hadj & _).
      rewrite (epoch_loop_cons _ _ _ _ _ _ _ Hadj) in Hrun.
      set (st1 := train a epoch _) in Hrun.
      destruct (test_tail_saved_cases a log_dir (eval_pass (net st1))
                  epoch st1) as (st2 & Hok & Hnet & _).
      unfold test in Hrun. rewrite Hok in Hrun.
      destruct (IH st2 st' Hrun) as [Hsh Hfile]. split; [| done].
      rewrite Hsh, Hnet. subst st1. rewrite train_net. apply Htrain. }
  destruct (epoch_loop_monotone a log_dir (epochs ++ [last_epoch]) st)
    as (st' & Hrun & _); [intros epoch _; by apply policy_returns_defined |].
  destruct (Hloop st st' Hrun) as [Hsh Hfile].
  exists st'. split; [done |]. split; [done |].
  destruct (checkpoint_state_dict a last_epoch (net st') (optimizer st')
              (eval_pass (net st'))) as (d & Hd & _ & _ & _ & _ & Hsd & _).
  rewrite (resume_dict _ _ d) by (by rewrite Hfile, Hd).
  rewrite Hsd. simpl. rewrite net_state_dict_module.
  apply load_state_dict_value. by rewrite Hsh.
Qed.
End LoopMore.

Lemma final_checkpoint_holds_final_weights_witness :
  ∃ st',
    @epoch_loop sample_torch (args_with_lr 0.1 "exp" 150) "./logs/r-run1"
      ([0] ++ [1]) sample_session = Ok st' ∧
    resume (ckpt_file "./logs/r-run1") (disk st') sample_module
    = Ok (Build_module (weights (module_of (net st')))).
Proof.
  destruct (@final_checkpoint_holds_final_weights sample_torch
              (args_with_lr 0.1 "exp" 150) "./logs/r-run1" [0] 1
              sample_session sample_module)
    as (st' & Hrun & _ & Hres).
  - right; by left.
  - reflexivity.
  - intros epoch n o. reflexivity.
  - by exists st'.
Defined.

(** ** Resuming, further *)

Section ResumeMore.
Context `{!Torch}.

(** X19: a file that holds a bare state dict (without a parameter named
    [state_dict]) resumes exactly as a file that wraps the same state dict
    under the key [state_dict]. *)
Theorem resume_raw_as_wrapped (p : string) (disk1 disk2 : files)
    (d : gmap string value) (m m0 : module) :
  weights m !! "state_dict" = None →
  disk1 !! p = Some (state_dict_value m) →
  disk2 !! p = Some (VDict d) →
  d !! "state_dict" = Some (state_dict_value m) →
  resume p disk1 m0 = resume p disk2 m0 ∧
  (length <$> weights m = length <$> weights m0 →
   resume p disk1 m0 = Ok (Build_module (weights m))).
Proof.
  intros Hkey H1 H2 Hsd.
  assert (resume p disk1 m0 = load_state_dict m0 (state_dict_value m)) as Hraw.
  { unfold state_dict_value in H1. rewrite (resume_dict p disk1 _ m0 H1).
    by rewrite lookup_fmap, Hkey. }
  split.
  - rewrite Hraw, (resume_dict p disk2 d m0 H2). by rewrite Hsd.
  - intros Hshape. rewrite Hraw. by apply load_state_dict_value.
Qed.

End ResumeMore.

Lemma resume_raw_as_wrapped_witness :
  resume "ck.pth.tar" {[ "ck.pth.tar" := state_dict_value sample_module ]}
    sample_module
  = resume "ck.pth.tar" {[ "ck.pth.tar" := VDict sample_checkpoint ]}
      sample_module ∧
  resume "ck.pth.tar" {[ "ck.pth.tar" := state_dict_value sample_module ]}
    sample_module
  = Ok (Build_module (weights sample_module)).
Proof.
  destruct (resume_raw_as_wrapped "ck.pth.tar"
              {[ "ck.pth.tar" := state_dict_value sample_module ]}
              {[ "ck.pth.tar" := VDict sample_checkpoint ]}
              sample_checkpoint sample_module sample_module) as [Heq Hok].
  - unfold sample_module. simpl. by rewrite !lookup_insert_ne.
  - apply lookup_singleton_eq.
  - apply lookup_singleton_eq.
  - unfold sample_checkpoint. rewrite lookup_insert_ne by done.
    apply lookup_insert_eq.
  - split; [exact Heq | by apply Hok].
Defined.

(** ** Saving twice *)

(** X21: [save_checkpoint] overwrites the checkpoint file each time and the
    best file only for a best state: after a best state [s1] and a later
    state [s2] that is not best, the checkpoint file holds [s2], the best
    file still holds [s1], and every other file is as before. *)
Theorem save_checkpoint_latest_and_best (s1 s2 : value)
    (checkpoint_dir : string) (disk0 : files) :
  ∃ disk1 disk2,
    save_checkpoint s1 true checkpoint_dir disk0 = Ok disk1 ∧
    save_checkpoint s2 false checkpoint_dir disk1 = Ok disk2 ∧
    disk2 !! ckpt_file checkpoint_dir = Some s2 ∧
    disk2 !! best_file checkpoint_dir = Some s1 ∧
    ∀ path, path ≠ ckpt_file checkpoint_dir →
            path ≠ best_file checkpoint_dir →
            disk2 !! path = disk0 !! path.
Proof.
  pose proof (best_file_ne checkpoint_dir) as Hne.
  do 2 eexists. rewrite !save_checkpoint_result.
  split; [done |]. split; [done |].
  split; [apply lookup_insert_eq |].
  split; [by rewrite lookup_insert_ne, lookup_insert_eq |].
  intros path H1 H2. by rewrite !lookup_insert_ne.
Qed.

Lemma save_checkpoint_latest_and_best_witness :
  ∃ disk1 disk2,
    save_checkpoint (VInt 1) true "./logs/r-run1" ∅ = Ok disk1 ∧
    save_checkpoint (VInt 2) false "./logs/r-run1" disk1 = Ok disk2 ∧
    disk2 !! ckpt_file "./logs/r-run1" = Some (VInt 2) ∧
    disk2 !! best_file "./logs/r-run1" = Some (VInt 1) ∧
    disk2 !! "other" = (∅ : files) !! "other".
Proof.
  destruct (save_checkpoint_latest_and_best (VInt 1) (VInt 2) "./logs/r-run1" ∅)
    as (disk1 & disk2 & H1 & H2 & Hc & Hb & Hframe).
  exists disk1, disk2. split; [exact H1 |]. split; [exact H2 |].
  split; [exact Hc |]. split; [exact Hb |]. apply Hframe; discriminate.
Defined.
